(** * Cache-aside user service: shallow embedding and verification

    The development embeds the HTTP handlers of the user service
    ([getUsers], [createUser], [updateUser], [deleteUser], [updateCache]
    and the generic Redis passthrough handlers) as functions over an
    explicit world: the [users] table, the Redis keyspace, a logical
    clock, the process log and a record of every adapter call.

    The handlers are translated from the Go source.  What the source
    delegates to its libraries (database/sql with the MySQL driver,
    go-redis, encoding/json, net/http) is modelled in the first part of
    the file; each such definition says what it stands for. *)

From Stdlib Require Import ZArith List Ascii String Bool Lia.
From stdpp Require Import base option list strings gmap pretty.

Local Open Scope string_scope.
Local Open Scope list_scope.
Local Open Scope Z_scope.

(** ** Data model *)

(** [type User struct { ID int; Username string; Email string }] *)
Record User := mkUser {
  ID : Z;
  Username : string;
  Email : string
}.

(** Errors returned by the libraries.  [Fault] is an error of the
    connection or of the server (its text comes from outside),
    [RedisNil] is go-redis's [redis.Nil], [WrongType] is the reply of
    Redis to a command on a key of another type, [DecodeError] is an
    error of [json.Decoder.Decode]. *)
Inductive error :=
  | Fault (msg : string)
  | RedisNil
  | WrongType
  | DecodeError (msg : string).

(** [err.Error()] *)
Definition Error (e : error) : string :=
  match e with
  | Fault msg => msg
  | RedisNil => "redis: nil"
  | WrongType => "WRONGTYPE Operation against a key holding the wrong kind of value"
  | DecodeError msg => msg
  end.

Inductive result (A : Type) :=
  | Ok (a : A)
  | Err (e : error).
Arguments Ok {A} a.
Arguments Err {A} e.

(** ** encoding/json: marshalling of [[]User] *)

Module Json.

Definition hex_digit (n : N) : ascii :=
  match n with
  | 0 => "0" | 1 => "1" | 2 => "2" | 3 => "3" | 4 => "4" | 5 => "5"
  | 6 => "6" | 7 => "7" | 8 => "8" | 9 => "9" | 10 => "a" | 11 => "b"
  | 12 => "c" | 13 => "d" | 14 => "e" | _ => "f"
  end%N%char.

(** One byte of a Go string as the encoder writes it (HTML escaping is
    on for [json.Marshal]).  Bytes from 0x80 on are copied: the
    encoder's replacement of invalid UTF-8 and its escapes for U+2028
    and U+2029 are outside the model. *)
Definition quote_char : ascii := ascii_of_N 34.
Definition backslash : ascii := ascii_of_N 92.

Definition escape (c : ascii) : string :=
  String backslash (String c EmptyString).

Definition encode_byte (c : ascii) : string :=
  let n := N_of_ascii c in
  if (n =? 34)%N then escape quote_char
  else if (n =? 92)%N then escape backslash
  else if (n =? 8)%N then escape "b"
  else if (n =? 12)%N then escape "f"
  else if (n =? 10)%N then escape "n"
  else if (n =? 13)%N then escape "r"
  else if (n =? 9)%N then escape "t"
  else if ((n <? 32) || (n =? 38) || (n =? 60) || (n =? 62))%N then
    String backslash (String "u" (String "0" (String "0"
      (String (hex_digit (n / 16)) (String (hex_digit (n mod 16)) EmptyString)))))
  else String c EmptyString.

Fixpoint encode_bytes (s : string) : string :=
  match s with
  | EmptyString => EmptyString
  | String c rest => encode_byte c +:+ encode_bytes rest
  end.

Definition quote : string := String quote_char EmptyString.

Definition encode_string (s : string) : string :=
  quote +:+ encode_bytes s +:+ quote.

(** A [User] value: the fields in declaration order under their
    [json] tags. *)
Definition encode_user (u : User) : string :=
  "{" +:+ quote +:+ "id" +:+ quote +:+ ":" +:+ pretty (ID u) +:+ ","
      +:+ quote +:+ "username" +:+ quote +:+ ":" +:+ encode_string (Username u) +:+ ","
      +:+ quote +:+ "email" +:+ quote +:+ ":" +:+ encode_string (Email u) +:+ "}".

Fixpoint join (sep : string) (l : list string) : string :=
  match l with
  | [] => EmptyString
  | [x] => x
  | x :: rest => x +:+ sep +:+ join sep rest
  end.

(** [json.Marshal(users)] for [users []User].  In every handler the
    slice is declared by [var users []User] and only grown by
    [append], so it is the nil slice exactly when no row was appended;
    the encoder writes a nil slice as [null] and a non-nil one as a
    JSON array.  No value of this type makes [Marshal] fail. *)
Definition Marshal (users : list User) : result string :=
  match users with
  | [] => Ok "null"
  | _ => Ok ("[" +:+ join "," (map encode_user users) +:+ "]")
  end.

End Json.


(** ** encoding/json: decoding of a request body into a [User] *)

#[local] Set Warnings "-register-all".

(** A request body after lexing.  [JFloat] is a number literal with a
    fraction or an exponent, kept as written. *)
Inductive json :=
  | JNull
  | JBool (b : bool)
  | JInt (n : Z)
  | JFloat (lit : string)
  | JString (s : string)
  | JArray (items : list json)
  | JObject (members : list (string * json)).

Module Decoder.

Definition lower_byte (c : ascii) : ascii :=
  let n := N_of_ascii c in
  if ((65 <=? n) && (n <=? 90))%N then ascii_of_N (n + 32) else c.

Fixpoint lower (s : string) : string :=
  match s with
  | EmptyString => EmptyString
  | String c rest => String (lower_byte c) (lower rest)
  end.

(** The name of a JSON value's kind in the decoder's messages. *)
Definition kind (j : json) : string :=
  match j with
  | JNull => "null"
  | JBool _ => "bool"
  | JInt _ | JFloat _ => "number"
  | JString _ => "string"
  | JArray _ => "array"
  | JObject _ => "object"
  end.

(** The decoder's error for a value that does not fit the field; its
    text follows the decoder's wording.  The decoder reads on after such
    an error and returns the first one at the end; the handlers only
    test the error, so [set_fields] stops at it. *)
Definition mismatch (j : json) (field type : string) : error :=
  DecodeError ("json: cannot unmarshal " +:+ kind j +:+ " into Go struct field User."
               +:+ field +:+ " of type " +:+ type).

Definition min_int : Z := - 2 ^ 63.
Definition max_int : Z := 2 ^ 63 - 1.

(** One member of the body's object stored into [user].  A key selects
    the field whose tag it equals up to the case of ASCII letters,
    other keys are skipped; [null] leaves the field as it is. *)
Definition set_field (user : User) (key : string) (v : json) : result User :=
  let k := lower key in
  if String.eqb k "id" then
    match v with
    | JNull => Ok user
    | JInt n =>
        if (min_int <=? n) && (n <=? max_int)
        then Ok (mkUser n (Username user) (Email user))
        else Err (mismatch v "id" "int")
    | _ => Err (mismatch v "id" "int")
    end
  else if String.eqb k "username" then
    match v with
    | JNull => Ok user
    | JString s => Ok (mkUser (ID user) s (Email user))
    | _ => Err (mismatch v "username" "string")
    end
  else if String.eqb k "email" then
    match v with
    | JNull => Ok user
    | JString s => Ok (mkUser (ID user) (Username user) s)
    | _ => Err (mismatch v "email" "string")
    end
  else Ok user.

Fixpoint set_fields (user : User) (members : list (string * json)) : result User :=
  match members with
  | [] => Ok user
  | (key, v) :: rest =>
      match set_field user key v with
      | Ok user' => set_fields user' rest
      | Err e => Err e
      end
  end.

(** [var user User; err := json.NewDecoder(r.Body).Decode(&user)].
    The body is [inl msg] when its text is not a JSON value ([msg] is
    the syntax error, [EOF] for an empty body).  [user] starts as the
    zero value, so a field the body does not mention stays [0] or the
    empty string and is no error. *)
Definition Decode (body : string + json) : result User :=
  let user := mkUser 0 EmptyString EmptyString in
  match body with
  | inl msg => Err (DecodeError msg)
  | inr JNull => Ok user
  | inr (JObject members) => set_fields user members
  | inr j => Err (DecodeError ("json: cannot unmarshal " +:+ kind j
                               +:+ " into Go value of type main.User"))
  end.

End Decoder.

(** ** net/http: requests and responses *)

(** What the handlers read of a request: the body and the parsed query
    string, in the order of the URL. *)
Record Request := mkRequest {
  Body : string + json;
  Query : list (string * string)
}.

(** [r.URL.Query()[key]] *)
Definition query_values (r : Request) (key : string) : list string :=
  map snd (List.filter (fun kv => String.eqb (fst kv) key) (Query r)).

(** [r.URL.Query().Get(key)]: the first value of [key], or the empty
    string. *)
Definition query_get (r : Request) (key : string) : string :=
  match query_values r key with
  | [] => EmptyString
  | v :: _ => v
  end.

(** What a handler leaves in its [http.ResponseWriter].  [content_type]
    is the header when the handler set it ([None] leaves it to the
    server's sniffing). *)
Record Response := mkResponse {
  status : Z;
  content_type : option string;
  body : string
}.

Definition StatusOK : Z := 200.
Definition StatusCreated : Z := 201.
Definition StatusBadRequest : Z := 400.
Definition StatusInternalServerError : Z := 500.

Definition newline : string := String (ascii_of_N 10) EmptyString.

(** [http.Error(w, msg, code)] *)
Definition http_Error (msg : string) (code : Z) : Response :=
  mkResponse code (Some "text/plain; charset=utf-8") (msg +:+ newline).

(** [w.WriteHeader(code)] and nothing written. *)
Definition write_header (code : Z) : Response :=
  mkResponse code None EmptyString.

(** [w.Header().Set("Content-Type", "application/json"); w.Write(payload)]:
    the first write sends status 200. *)
Definition write_json (payload : string) : Response :=
  mkResponse StatusOK (Some "application/json") payload.

(** [fmt.Fprintf(w, ...)] with no header set. *)
Definition write_text (text : string) : Response :=
  mkResponse StatusOK None text.

(** ** The world of the handlers *)

(** The three statements the handlers pass to [db.Exec], with their
    arguments in the order of the placeholders. *)
Inductive stmt :=
  | InsertUser (username email : string)
  | UpdateEmail (email username : string)
  | DeleteUser (username : string).

(** A value of the Redis keyspace. *)
Inductive rvalue :=
  | RString (s : string)
  | RList (items : list string)
  | RHash (fields : gmap string string).

(** A key's value and the instant it expires at, if any. *)
Record entry := mkEntry {
  value : rvalue;
  expire_at : option Z
}.

(** The calls the handlers make to the database and to Redis. *)
Inductive call :=
  | DbExec (s : stmt)
  | DbQuery
  | RowsScan
  | RdbGet (key : string)
  | RdbSet (key value : string) (ttl : Z)
  | RdbRPush (key : string) (values : list string)
  | RdbLRange (key : string)
  | RdbHSet (key field value : string)
  | RdbHGet (key field : string).

Definition is_db_call (c : call) : bool :=
  match c with
  | DbExec _ | DbQuery | RowsScan => true
  | _ => false
  end.

Definition is_rdb_call (c : call) : bool := negb (is_db_call c).

(** The globals [db] and [rdb] with what stands behind them.
    - [rows]: the table [users] in the order a [SELECT] without
      [ORDER BY] lists it; [next_id]: its [AUTO_INCREMENT] counter.
    - [rdb]: the keyspace of Redis; [now]: the clock of Redis, in
      nanoseconds as [time.Duration] counts.  No handler advances it.
    - [faults]: the outcome of the calls to come, one element per call
      to the database or Redis in the order they are made: [Some msg]
      makes the call return an error with that text and no effect,
      [None] (or a list used up) lets it through.  Every error of the
      database (connection, constraint, type conversion in [Scan]) and
      every error of Redis other than [redis.Nil] and a wrong type
      comes from here.
    - [calls]: the calls made so far, oldest first.
    - [logs]: the lines written by [log.Println], without their time
      stamp, oldest first. *)
Record World := mkWorld {
  rows : list User;
  next_id : Z;
  rdb : gmap string entry;
  now : Z;
  faults : list (option string);
  calls : list call;
  logs : list string
}.

(** Handlers are state transformers over the world. *)
Definition M (A : Type) : Type := World -> A * World.

Definition ret {A : Type} (a : A) : M A := fun w => (a, w).

Definition bind {A B : Type} (m : M A) (k : A -> M B) : M B :=
  fun w => match m w with (a, w') => k a w' end.

Notation "x <- m ;; k" := (bind m (fun x => k))
  (at level 100, m at next level, right associativity).

(** The outcome of the next call to an adapter. *)
Definition next_outcome (fs : list (option string)) : option string :=
  match fs with
  | [] => None
  | f :: _ => f
  end.

Definition pending (w : World) : option string := next_outcome (faults w).

(** A call to an adapter: it is recorded and takes the next outcome. *)
Definition adapter_call (c : call) : M (option string) := fun w =>
  (pending w,
   mkWorld (rows w) (next_id w) (rdb w) (now w)
           (tail (faults w)) (calls w ++ [c]) (logs w)).

(** [log.Println(prefix, err)] *)
Definition log_Println (prefix : string) (err : error) : M unit := fun w =>
  (tt, mkWorld (rows w) (next_id w) (rdb w) (now w) (faults w) (calls w)
               (logs w ++ [prefix +:+ " " +:+ Error err])).

Definition set_table (rs : list User) (n : Z) : M unit := fun w =>
  (tt, mkWorld rs n (rdb w) (now w) (faults w) (calls w) (logs w)).

Definition set_rdb (m : gmap string entry) : M unit := fun w =>
  (tt, mkWorld (rows w) (next_id w) m (now w) (faults w) (calls w) (logs w)).

Definition get_world : M World := fun w => (w, w).

(** ** database/sql over the table [users] *)

(** [db.Query("SELECT id, username, email FROM users;")]: the cursor
    is the list of the table's rows.  The handlers never ask the cursor
    for an error of the iteration ([rows.Err]), and none is modelled:
    [rows.Next] delivers every row. *)
Definition db_Query : M (result (list User)) :=
  f <- adapter_call DbQuery ;;
  match f with
  | Some msg => ret (Err (Fault msg))
  | None => w <- get_world ;; ret (Ok (rows w))
  end.

(** [rows.Scan(&user.ID, &user.Username, &user.Email)] on one row. *)
Definition rows_Scan (row : User) : M (result User) :=
  f <- adapter_call RowsScan ;;
  match f with
  | Some msg => ret (Err (Fault msg))
  | None => ret (Ok row)
  end.

(** The loop [for rows.Next() { ...Scan...; users = append(users, user) }]
    that the handlers share, stopped by the first error of [Scan];
    [users] is the slice built so far. *)
Fixpoint scan_rows (cursor : list User) (users : list User) : M (result (list User)) :=
  match cursor with
  | [] => ret (Ok users)
  | row :: rest =>
      s <- rows_Scan row ;;
      match s with
      | Err err => ret (Err err)
      | Ok user => scan_rows rest (users ++ [user])
      end
  end.

Section Store.

(** Equality of two user names as the collation of the column
    [username] decides it in [WHERE username = ?]. *)
Variable username_eq : string -> string -> bool.

(** The table and its counter after a statement. *)
Definition run_stmt (s : stmt) (rs : list User) (n : Z) : list User * Z :=
  match s with
  | InsertUser username email =>
      (rs ++ [mkUser n username email], n + 1)
  | UpdateEmail email username =>
      (map (fun u => if username_eq (Username u) username
                     then mkUser (ID u) (Username u) email else u) rs, n)
  | DeleteUser username =>
      (List.filter (fun u => negb (username_eq (Username u) username)) rs, n)
  end.

(** [db.Exec(statement, args...)] *)
Definition db_Exec (s : stmt) : M (result unit) :=
  f <- adapter_call (DbExec s) ;;
  match f with
  | Some msg => ret (Err (Fault msg))
  | None =>
      w <- get_world ;;
      _ <- set_table (fst (run_stmt s (rows w) (next_id w)))
                     (snd (run_stmt s (rows w) (next_id w))) ;;
      ret (Ok tt)
  end.

End Store.

(** ** go-redis over the keyspace *)

(** [time.Minute], in nanoseconds. *)
Definition Minute : Z := 60 * 1000000000.

Definition live (t : Z) (e : entry) : bool :=
  match expire_at e with
  | None => true
  | Some x => t <? x
  end.

(** The entry of a key that is present and not expired. *)
Definition lookup_live (w : World) (key : string) : option entry :=
  match rdb w !! key with
  | Some e => if live (now w) e then Some e else None
  | None => None
  end.

(** [rdb.Get(ctx, key).Result()] *)
Definition rdb_Get (key : string) : M (result string) :=
  f <- adapter_call (RdbGet key) ;;
  match f with
  | Some msg => ret (Err (Fault msg))
  | None =>
      w <- get_world ;;
      ret (match lookup_live w key with
           | None => Err RedisNil
           | Some e =>
               match value e with
               | RString s => Ok s
               | _ => Err WrongType
               end
           end)
  end.

(** [rdb.Set(ctx, key, value, ttl).Err()]: the key is overwritten
    whatever it held; a positive [ttl] makes it expire, [0] does not
    (the handlers pass no other). *)
Definition rdb_Set (key val : string) (ttl : Z) : M (result unit) :=
  f <- adapter_call (RdbSet key val ttl) ;;
  match f with
  | Some msg => ret (Err (Fault msg))
  | None =>
      w <- get_world ;;
      _ <- set_rdb (<[key := mkEntry (RString val)
                            (if 0 <? ttl then Some (now w + ttl) else None)]> (rdb w)) ;;
      ret (Ok tt)
  end.

(** [rdb.RPush(ctx, key, values).Err()] *)
Definition rdb_RPush (key : string) (values : list string) : M (result unit) :=
  f <- adapter_call (RdbRPush key values) ;;
  match f with
  | Some msg => ret (Err (Fault msg))
  | None =>
      w <- get_world ;;
      match lookup_live w key with
      | None =>
          _ <- set_rdb (<[key := mkEntry (RList values) None]> (rdb w)) ;;
          ret (Ok tt)
      | Some e =>
          match value e with
          | RList items =>
              _ <- set_rdb (<[key := mkEntry (RList (items ++ values)) (expire_at e)]> (rdb w)) ;;
              ret (Ok tt)
          | _ => ret (Err WrongType)
          end
      end
  end.

(** [rdb.LRange(ctx, key, 0, -1).Result()] *)
Definition rdb_LRange (key : string) : M (result (list string)) :=
  f <- adapter_call (RdbLRange key) ;;
  match f with
  | Some msg => ret (Err (Fault msg))
  | None =>
      w <- get_world ;;
      ret (match lookup_live w key with
           | None => Ok []
           | Some e =>
               match value e with
               | RList items => Ok items
               | _ => Err WrongType
               end
           end)
  end.

(** [rdb.HSet(ctx, key, field, value).Err()] *)
Definition rdb_HSet (key field val : string) : M (result unit) :=
  f <- adapter_call (RdbHSet key field val) ;;
  match f with
  | Some msg => ret (Err (Fault msg))
  | None =>
      w <- get_world ;;
      match lookup_live w key with
      | None =>
          _ <- set_rdb (<[key := mkEntry (RHash {[field := val]}) None]> (rdb w)) ;;
          ret (Ok tt)
      | Some e =>
          match value e with
          | RHash fields =>
              _ <- set_rdb (<[key := mkEntry (RHash (<[field := val]> fields)) (expire_at e)]> (rdb w)) ;;
              ret (Ok tt)
          | _ => ret (Err WrongType)
          end
      end
  end.

(** [rdb.HGet(ctx, key, field).Result()] *)
Definition rdb_HGet (key field : string) : M (result string) :=
  f <- adapter_call (RdbHGet key field) ;;
  match f with
  | Some msg => ret (Err (Fault msg))
  | None =>
      w <- get_world ;;
      ret (match lookup_live w key with
           | None => Err RedisNil
           | Some e =>
               match value e with
               | RHash fields =>
                   match fields !! field with
                   | Some v => Ok v
                   | None => Err RedisNil
                   end
               | _ => Err WrongType
               end
           end)
  end.

Definition is_empty (s : string) : bool := String.eqb s EmptyString.

(** ** The handlers without a cache (main.go) *)

Module Plain.
Section Handlers.

Variable username_eq : string -> string -> bool.

(** [json.NewEncoder(w).Encode(users)] writes the value and a newline;
    the handler does not look at its error. *)
Definition getUsers (r : Request) : M Response :=
  q <- db_Query ;;
  match q with
  | Err err => ret (http_Error (Error err) StatusInternalServerError)
  | Ok cursor =>
      s <- scan_rows cursor [] ;;
      match s with
      | Err err => ret (http_Error (Error err) StatusInternalServerError)
      | Ok users =>
          match Json.Marshal users with
          | Ok usersJSON => ret (write_json (usersJSON +:+ newline))
          | Err _ => ret (write_json EmptyString)
          end
      end
  end.

Definition createUser (r : Request) : M Response :=
  match Decoder.Decode (Body r) with
  | Err err => ret (http_Error (Error err) StatusBadRequest)
  | Ok user =>
      e <- db_Exec username_eq (InsertUser (Username user) (Email user)) ;;
      match e with
      | Err err => ret (http_Error (Error err) StatusInternalServerError)
      | Ok _ => ret (write_header StatusCreated)
      end
  end.

Definition updateUser (r : Request) : M Response :=
  match Decoder.Decode (Body r) with
  | Err err => ret (http_Error (Error err) StatusBadRequest)
  | Ok user =>
      e <- db_Exec username_eq (UpdateEmail (Email user) (Username user)) ;;
      match e with
      | Err err => ret (http_Error (Error err) StatusInternalServerError)
      | Ok _ => ret (write_header StatusOK)
      end
  end.

Definition deleteUser (r : Request) : M Response :=
  let username := query_get r "username" in
  if is_empty username then
    ret (http_Error "Missing username parameter" StatusBadRequest)
  else
    e <- db_Exec username_eq (DeleteUser username) ;;
    match e with
    | Err err => ret (http_Error (Error err) StatusInternalServerError)
    | Ok _ => ret (write_header StatusOK)
    end.

End Handlers.
End Plain.

(** ** The handlers with the Redis cache *)

Section Service.

Variable username_eq : string -> string -> bool.

Definition getUsers (r : Request) : M Response :=
  c <- rdb_Get "users" ;;
  match c with
  | Ok usersJSON => ret (write_json usersJSON)
  | Err _ =>
      q <- db_Query ;;
      match q with
      | Err err => ret (http_Error (Error err) StatusInternalServerError)
      | Ok cursor =>
          s <- scan_rows cursor [] ;;
          match s with
          | Err err => ret (http_Error (Error err) StatusInternalServerError)
          | Ok users =>
              match Json.Marshal users with
              | Err err => ret (http_Error (Error err) StatusInternalServerError)
              | Ok usersJSONRes =>
                  e <- rdb_Set "users" usersJSONRes (2 * Minute) ;;
                  match e with
                  | Err err => ret (http_Error (Error err) StatusInternalServerError)
                  | Ok _ => ret (write_json usersJSONRes)
                  end
              end
          end
      end
  end.

Definition updateCache : M unit :=
  q <- db_Query ;;
  match q with
  | Err err => log_Println "Failed to query MySQL:" err
  | Ok cursor =>
      s <- scan_rows cursor [] ;;
      match s with
      | Err err => log_Println "Failed to scan row:" err
      | Ok users =>
          match Json.Marshal users with
          | Err err => log_Println "Failed to marshal JSON:" err
          | Ok usersJSON =>
              e <- rdb_Set "users" usersJSON (5 * Minute) ;;
              match e with
              | Err err => log_Println "Failed to update Redis cache:" err
              | Ok _ => ret tt
              end
          end
      end
  end.

Definition createUser (r : Request) : M Response :=
  match Decoder.Decode (Body r) with
  | Err err => ret (http_Error (Error err) StatusBadRequest)
  | Ok user =>
      e <- db_Exec username_eq (InsertUser (Username user) (Email user)) ;;
      match e with
      | Err err => ret (http_Error (Error err) StatusInternalServerError)
      | Ok _ =>
          _ <- updateCache ;;
          ret (write_header StatusCreated)
      end
  end.

Definition updateUser (r : Request) : M Response :=
  match Decoder.Decode (Body r) with
  | Err err => ret (http_Error (Error err) StatusBadRequest)
  | Ok user =>
      e <- db_Exec username_eq (UpdateEmail (Email user) (Username user)) ;;
      match e with
      | Err err => ret (http_Error (Error err) StatusInternalServerError)
      | Ok _ =>
          _ <- updateCache ;;
          ret (write_header StatusOK)
      end
  end.

Definition deleteUser (r : Request) : M Response :=
  let username := query_get r "username" in
  if is_empty username then
    ret (http_Error "Missing username parameter" StatusBadRequest)
  else
    e <- db_Exec username_eq (DeleteUser username) ;;
    match e with
    | Err err => ret (http_Error (Error err) StatusInternalServerError)
    | Ok _ =>
        _ <- updateCache ;;
        ret (write_header StatusOK)
    end.

(** *** Redis functions *)

Definition setString (r : Request) : M Response :=
  let key := query_get r "key" in
  let val := query_get r "value" in
  if is_empty key || is_empty val then
    ret (http_Error "Missing key or value parameters" StatusBadRequest)
  else
    e <- rdb_Set key val 0 ;;
    match e with
    | Err err => ret (http_Error (Error err) StatusInternalServerError)
    | Ok _ => ret (write_header StatusOK)
    end.

Definition getString (r : Request) : M Response :=
  let key := query_get r "key" in
  if is_empty key then
    ret (http_Error "Missing key parameter" StatusBadRequest)
  else
    g <- rdb_Get key ;;
    match g with
    | Err err => ret (http_Error (Error err) StatusInternalServerError)
    | Ok val => ret (write_text ("Value for key " +:+ key +:+ ": " +:+ val +:+ newline))
    end.

Definition setList (r : Request) : M Response :=
  let key := query_get r "key" in
  let values := query_values r "value" in
  if is_empty key || (length values =? 0)%nat then
    ret (http_Error "Missing key or value parameters" StatusBadRequest)
  else
    e <- rdb_RPush key values ;;
    match e with
    | Err err => ret (http_Error (Error err) StatusInternalServerError)
    | Ok _ => ret (write_header StatusOK)
    end.

(** [%v] writes a slice of strings between brackets, separated by
    spaces. *)
Definition getList (r : Request) : M Response :=
  let key := query_get r "key" in
  if is_empty key then
    ret (http_Error "Missing key parameter" StatusBadRequest)
  else
    g <- rdb_LRange key ;;
    match g with
    | Err err => ret (http_Error (Error err) StatusInternalServerError)
    | Ok vals =>
        ret (write_text ("Values for key " +:+ key +:+ ": [" +:+ Json.join " " vals
                         +:+ "]" +:+ newline))
    end.

Definition setHash (r : Request) : M Response :=
  let key := query_get r "key" in
  let field := query_get r "field" in
  let val := query_get r "value" in
  if is_empty key || is_empty field || is_empty val then
    ret (http_Error "Missing key, field, or value parameters" StatusBadRequest)
  else
    e <- rdb_HSet key field val ;;
    match e with
    | Err err => ret (http_Error (Error err) StatusInternalServerError)
    | Ok _ => ret (write_header StatusOK)
    end.

Definition getHash (r : Request) : M Response :=
  let key := query_get r "key" in
  let field := query_get r "field" in
  if is_empty key || is_empty field then
    ret (http_Error "Missing key or field parameter" StatusBadRequest)
  else
    g <- rdb_HGet key field ;;
    match g with
    | Err err => ret (http_Error (Error err) StatusInternalServerError)
    | Ok val =>
        ret (write_text ("Value for field " +:+ field +:+ " in key " +:+ key +:+ ": "
                         +:+ val +:+ newline))
    end.

End Service.


(** ** Vocabulary of the statements *)

(** The three write requests. *)
Inductive write := Create | Update | Delete.

Section Vocabulary.

Variable username_eq : string -> string -> bool.

Definition write_handler (k : write) : Request -> M Response :=
  match k with
  | Create => createUser username_eq
  | Update => updateUser username_eq
  | Delete => deleteUser username_eq
  end.

(** The status a write answers with when it went through. *)
Definition success_status (k : write) : Z :=
  match k with
  | Create => StatusCreated
  | Update | Delete => StatusOK
  end.

(** The statement a write request makes its handler execute, or the
    message of the check that turns the request away. *)
Definition accepted (k : write) (r : Request) : string + stmt :=
  match k with
  | Create =>
      match Decoder.Decode (Body r) with
      | Ok user => inr (InsertUser (Username user) (Email user))
      | Err err => inl (Error err)
      end
  | Update =>
      match Decoder.Decode (Body r) with
      | Ok user => inr (UpdateEmail (Email user) (Username user))
      | Err err => inl (Error err)
      end
  | Delete =>
      if is_empty (query_get r "username")
      then inl "Missing username parameter"
      else inr (DeleteUser (query_get r "username"))
  end.


End Vocabulary.

(** The six generic key/value requests. *)
Inductive generic := SetString | GetString | SetList | GetList | SetHash | GetHash.

Definition generic_handler (g : generic) : Request -> M Response :=
  match g with
  | SetString => setString
  | GetString => getString
  | SetList => setList
  | GetList => getList
  | SetHash => setHash
  | GetHash => getHash
  end.

Definition no_fault (f : option string) : bool :=
  match f with
  | None => true
  | Some _ => false
  end.

(** After the next [k] calls to the adapters, the [n] calls that follow
    go through. *)
Definition quiet (k n : nat) (w : World) : bool :=
  forallb no_fault (take n (drop k (faults w))).

(** The outcome of the call number [k] from now, counting from 0. *)
Definition fault_at (k : nat) (w : World) : option string :=
  next_outcome (drop k (faults w)).

(** The payload a probe of the collection cache finds: the string under
    the key [users], when the key is there, has not expired and holds a
    string. *)
Definition hit_payload (w : World) : option string :=
  match lookup_live w "users" with
  | Some e =>
      match value e with
      | RString s => Some s
      | _ => None
      end
  | None => None
  end.

(** The payload of a table: its serialization. *)
Definition payload_of (users : list User) : string :=
  match Json.Marshal users with
  | Ok s => s
  | Err _ => EmptyString
  end.

(** The entry a handler stores under [users]. *)
Definition users_entry (users : list User) (t ttl : Z) : entry :=
  mkEntry (RString (payload_of users)) (Some (t + ttl)).

(** The lines [updateCache] can log. *)
Definition refresh_failures : list string :=
  ["Failed to query MySQL:"; "Failed to scan row:"; "Failed to marshal JSON:";
   "Failed to update Redis cache:"].

(** ** Sample worlds and requests *)

Definition ann : User := mkUser 1 "ann" "a@x.com".
Definition bob : User := mkUser 2 "bob" "b@x.com".

Definition no_query : list (string * string) := [].
Definition no_body : string + json := inl "EOF".

Definition list_request : Request := mkRequest no_body no_query.

Definition create_bob : Request :=
  mkRequest (inr (JObject [("username", JString "bob"); ("email", JString "b@x.com")]))
            no_query.

Definition delete_ann : Request := mkRequest no_body [("username", "ann")].

(** One user in the table, nothing in Redis, the calls to come as
    [outcomes] says. *)
Definition only_ann (outcomes : list (option string)) : World :=
  mkWorld [ann] 2 ∅ 0 outcomes [] [].

(** The same with the collection cached by an earlier read. *)
Definition ann_cached (outcomes : list (option string)) : World :=
  mkWorld [ann] 2 {["users" := users_entry [ann] 0 (2 * Minute)]} 0 outcomes [] [].



Definition empty_world : World := mkWorld [] 1 ∅ 0 [] [] [].

Definition set_users_key : Request :=
  mkRequest no_body [("key", "users"); ("value", "oops")].

Definition set_greeting : Request :=
  mkRequest no_body [("key", "greeting"); ("value", "hello")].

(** ** Vocabulary of the further properties *)


(** The list a key stands for in [LRANGE] and [RPUSH]: the empty list
    when the key is absent or expired, nothing when it holds a value of
    another type. *)
Definition list_at (w : World) (key : string) : option (list string) :=
  match lookup_live w key with
  | None => Some []
  | Some e =>
      match value e with
      | RList items => Some items
      | _ => None
      end
  end.

(** The hash a key stands for in [HGET] and [HSET]. *)
Definition hash_at (w : World) (key : string) : option (gmap string string) :=
  match lookup_live w key with
  | None => Some ∅
  | Some e =>
      match value e with
      | RHash fields => Some fields
      | _ => None
      end
  end.

(** The write handlers of main.go. *)
Definition plain_write_handler (username_eq : string -> string -> bool) (k : write)
    : Request -> M Response :=
  match k with
  | Create => Plain.createUser username_eq
  | Update => Plain.updateUser username_eq
  | Delete => Plain.deleteUser username_eq
  end.

(** The user name by which a statement selects its rows. *)
Definition selects (s : stmt) : option string :=
  match s with
  | InsertUser _ _ => None
  | UpdateEmail _ username => Some username
  | DeleteUser username => Some username
  end.

(** The table as its primary key wants it: no two rows with one id, and
    every id below the counter. *)
Definition keyed (w : World) : Prop :=
  NoDup (map ID (rows w)) /\ Forall (fun u => ID u < next_id w) (rows w).

Definition push_to_users : Request :=
  mkRequest no_body [("key", "users"); ("value", "x"); ("value", "y")].

Definition push_more : Request :=
  mkRequest no_body [("key", "queue"); ("value", "c")].

Definition push_first : Request :=
  mkRequest no_body [("key", "queue"); ("value", "a"); ("value", "b")].

Definition get_queue : Request := mkRequest no_body [("key", "queue")].

Definition set_color : Request :=
  mkRequest no_body [("key", "car"); ("field", "color"); ("value", "red")].

Definition get_color : Request :=
  mkRequest no_body [("key", "car"); ("field", "color")].

Definition get_greeting : Request := mkRequest no_body [("key", "greeting")].

Definition push_greeting : Request :=
  mkRequest no_body [("key", "greeting"); ("value", "x")].

Definition update_ann : Request :=
  mkRequest (inr (JObject [("username", JString "ann"); ("email", JString "ann@y.org")]))
            no_query.

Definition delete_zed : Request := mkRequest no_body [("username", "zed")].

Definition create_with_id : Request :=
  mkRequest (inr (JObject [("id", JInt 77); ("username", JString "bob");
                           ("email", JString "b@x.com")])) no_query.

(** * Properties *)

(** ** The adapters *)

Lemma scan_rows_quiet (cursor : list User) :
  forall users rs n m t fs cs ls,
    forallb no_fault (take (length cursor) fs) = true ->
    scan_rows cursor users (mkWorld rs n m t fs cs ls)
    = (Ok (users ++ cursor),
       mkWorld rs n m t (drop (length cursor) fs)
               (cs ++ replicate (length cursor) RowsScan) ls).
Proof.
  induction cursor as [|row rest IH]; intros users rs n m t fs cs ls Hq.
  - cbn. now rewrite !app_nil_r.
  - cbn [scan_rows]. unfold bind, rows_Scan, adapter_call, pending, next_outcome. cbn.
    destruct fs as [|[msg|] fs]; cbn in Hq |- *.
    + rewrite IH by now rewrite take_nil.
      rewrite drop_nil. now rewrite <- !app_assoc.
    + discriminate.
    + rewrite IH by exact Hq. now rewrite <- !app_assoc.
Qed.

Lemma scan_rows_faulty (cursor : list User) :
  forall users rs n m t fs cs ls,
    forallb no_fault (take (length cursor) fs) = false ->
    exists msg k,
      scan_rows cursor users (mkWorld rs n m t fs cs ls)
      = (Err (Fault msg),
         mkWorld rs n m t (drop k fs) (cs ++ replicate k RowsScan) ls).
Proof.
  induction cursor as [|row rest IH]; intros users rs n m t fs cs ls Hq.
  - discriminate.
  - cbn [scan_rows]. unfold bind, rows_Scan, adapter_call, pending, next_outcome. cbn.
    destruct fs as [|[msg|] fs]; cbn in Hq |- *.
    + discriminate.
    + exists msg, 1%nat. reflexivity.
    + destruct (IH (users ++ [row]) rs n m t fs (cs ++ [RowsScan]) ls Hq)
        as (msg & k & E).
      exists msg, (S k). rewrite E. cbn. now rewrite <- !app_assoc.
Qed.

Lemma forallb_take_add (a b : nat) :
  forall fs : list (option string),
    forallb no_fault (take (a + b) fs)
    = forallb no_fault (take a fs) && forallb no_fault (take b (drop a fs)).
Proof.
  induction a as [|a IH]; intros fs; cbn.
  - reflexivity.
  - destruct fs as [|f fs]; cbn.
    + now rewrite take_nil.
    + now rewrite IH, andb_assoc.
Qed.

Lemma Marshal_payload (users : list User) :
  Json.Marshal users = Ok (payload_of users).
Proof. now destruct users. Qed.


(** The adapters on a world written out. *)

Lemma db_Query_eq rs n m t fs cs ls :
  db_Query (mkWorld rs n m t fs cs ls)
  = (match next_outcome fs with
     | Some msg => Err (Fault msg)
     | None => Ok rs
     end,
     mkWorld rs n m t (tail fs) (cs ++ [DbQuery]) ls).
Proof.
  unfold db_Query, bind, adapter_call, get_world, ret, pending. cbn.
  now destruct (next_outcome fs).
Qed.

Lemma db_Exec_eq username_eq s rs n m t fs cs ls :
  db_Exec username_eq s (mkWorld rs n m t fs cs ls)
  = match next_outcome fs with
    | Some msg =>
        (Err (Fault msg), mkWorld rs n m t (tail fs) (cs ++ [DbExec s]) ls)
    | None =>
        (Ok tt,
         mkWorld (fst (run_stmt username_eq s rs n)) (snd (run_stmt username_eq s rs n))
                 m t (tail fs) (cs ++ [DbExec s]) ls)
    end.
Proof.
  unfold db_Exec, bind, adapter_call, get_world, set_table, ret, pending. cbn.
  now destruct (next_outcome fs).
Qed.

Lemma rdb_Get_eq key rs n m t fs cs ls :
  rdb_Get key (mkWorld rs n m t fs cs ls)
  = (match next_outcome fs with
     | Some msg => Err (Fault msg)
     | None =>
         match lookup_live (mkWorld rs n m t (tail fs) (cs ++ [RdbGet key]) ls) key with
         | None => Err RedisNil
         | Some e =>
             match value e with
             | RString s => Ok s
             | _ => Err WrongType
             end
         end
     end,
     mkWorld rs n m t (tail fs) (cs ++ [RdbGet key]) ls).
Proof.
  unfold rdb_Get, bind, adapter_call, get_world, ret, pending. cbn.
  now destruct (next_outcome fs).
Qed.

Lemma rdb_Set_eq key val ttl rs n m t fs cs ls :
  rdb_Set key val ttl (mkWorld rs n m t fs cs ls)
  = match next_outcome fs with
    | Some msg =>
        (Err (Fault msg), mkWorld rs n m t (tail fs) (cs ++ [RdbSet key val ttl]) ls)
    | None =>
        (Ok tt,
         mkWorld rs n
                 (<[key := mkEntry (RString val)
                             (if 0 <? ttl then Some (t + ttl) else None)]> m)
                 t (tail fs) (cs ++ [RdbSet key val ttl]) ls)
    end.
Proof.
  unfold rdb_Set, bind, adapter_call, get_world, set_rdb, ret, pending. cbn.
  now destruct (next_outcome fs).
Qed.

Lemma next_outcome_drop (k : nat) (fs : list (option string)) :
  forallb no_fault (take 1 (drop k fs)) = true ->
  next_outcome (drop k fs) = None.
Proof. destruct (drop k fs) as [|[msg|] fs']; cbn; congruence. Qed.

Lemma tail_drop (k : nat) (fs : list (option string)) :
  tail (drop k fs) = drop (S k) fs.
Proof.
  revert fs. induction k as [|k IH]; intros [|f fs]; cbn; try reflexivity.
  apply IH.
Qed.

Lemma forallb_take_1 (fs : list (option string)) :
  forallb no_fault (take 1 fs) = no_fault (next_outcome fs).
Proof. now destruct fs as [|[msg|] fs]. Qed.

Lemma drop_tail (k : nat) (fs : list (option string)) :
  drop k (tail fs) = drop (S k) fs.
Proof. destruct fs as [|f fs]; cbn; [apply drop_nil | reflexivity]. Qed.

(** ** The refresh after a write *)

Lemma updateCache_quiet rs n m t fs cs ls :
  forallb no_fault (take (2 + length rs) fs) = true ->
  updateCache (mkWorld rs n m t fs cs ls)
  = (tt,
     mkWorld rs n (<["users" := users_entry rs t (5 * Minute)]> m) t
             (drop (2 + length rs) fs)
             (cs ++ DbQuery :: replicate (length rs) RowsScan
                 ++ [RdbSet "users" (payload_of rs) (5 * Minute)])
             ls).
Proof.
  intros Hq.
  replace (2 + length rs)%nat with (1 + (length rs + 1))%nat in Hq by lia.
  rewrite forallb_take_add, forallb_take_add in Hq.
  apply andb_prop in Hq as [H1 Hq]. apply andb_prop in Hq as [H2 H3].
  unfold updateCache, bind. rewrite db_Query_eq.
  assert (next_outcome fs = None) as ->
    by (apply (next_outcome_drop 0); exact H1).
  change (drop 1 fs) with (tail fs) in H2, H3.
  rewrite scan_rows_quiet by exact H2.
  rewrite Marshal_payload, rdb_Set_eq.
  rewrite (next_outcome_drop _ _ H3).
  cbn [users_entry]. unfold users_entry.
  f_equal. f_equal.
  - now rewrite tail_drop, drop_tail.
  - now rewrite <- !app_assoc.
Qed.

Lemma updateCache_faulty rs n m t fs cs ls :
  forallb no_fault (take (2 + length rs) fs) = false ->
  exists prefix msg k cs',
    In prefix refresh_failures /\
    updateCache (mkWorld rs n m t fs cs ls)
    = (tt, mkWorld rs n m t (drop k fs) (cs ++ cs')
                   (ls ++ [prefix +:+ " " +:+ msg])).
Proof.
  intros Hq.
  replace (2 + length rs)%nat with (1 + (length rs + 1))%nat in Hq by lia.
  rewrite forallb_take_add, forallb_take_add in Hq.
  change (drop 1 fs) with (tail fs) in Hq.
  unfold updateCache, bind. rewrite db_Query_eq.
  destruct (next_outcome fs) as [msg|] eqn:E0.
  { exists "Failed to query MySQL:", msg, 1%nat, [DbQuery].
    split; [cbn; tauto |]. cbn. now destruct fs. }
  destruct (forallb no_fault (take (length rs) (tail fs))) eqn:E1.
  - rewrite scan_rows_quiet by exact E1.
    rewrite Marshal_payload, rdb_Set_eq.
    destruct (next_outcome (drop (length rs) (tail fs))) as [msg|] eqn:E2.
    + exists "Failed to update Redis cache:", msg, (2 + length rs)%nat,
        (DbQuery :: replicate (length rs) RowsScan
           ++ [RdbSet "users" (payload_of rs) (5 * Minute)]).
      split; [cbn; tauto |]. unfold log_Println.
      cbn [rows next_id rdb now faults calls logs Error app].
      f_equal. f_equal.
      * now rewrite tail_drop, drop_tail.
      * now rewrite <- !app_assoc.
    + exfalso. rewrite ?forallb_take_1, ?E0, ?E1, ?E2 in Hq. discriminate.
  - destruct (scan_rows_faulty rs [] rs n m t (tail fs) (cs ++ [DbQuery]) ls E1)
      as (msg & k & E).
    rewrite E.
    exists "Failed to scan row:", msg, (S k), (DbQuery :: replicate k RowsScan).
    split; [cbn; tauto |]. unfold log_Println.
      cbn [rows next_id rdb now faults calls logs Error app].
    f_equal. f_equal.
    + apply drop_tail.
    + now rewrite <- !app_assoc.
Qed.

(** ** The read path *)

Lemma probe_outcome rs n m t fs cs ls :
  fst (rdb_Get "users" (mkWorld rs n m t fs cs ls))
  = match next_outcome fs with
    | Some msg => Err (Fault msg)
    | None =>
        match m !! "users" with
        | Some e =>
            if live t e
            then match value e with
                 | RString s => Ok s
                 | _ => Err WrongType
                 end
            else Err RedisNil
        | None => Err RedisNil
        end
    end.
Proof.
  rewrite rdb_Get_eq. cbn [fst]. unfold lookup_live. cbn [rdb now].
  destruct (next_outcome fs); [reflexivity |].
  destruct (m !! "users") as [e|]; [|reflexivity].
  now destruct (live t e).
Qed.

Lemma getUsers_hit_eq r payload rs n m t fs cs ls :
  fst (rdb_Get "users" (mkWorld rs n m t fs cs ls)) = Ok payload ->
  getUsers r (mkWorld rs n m t fs cs ls)
  = (write_json payload, mkWorld rs n m t (tail fs) (cs ++ [RdbGet "users"]) ls).
Proof.
  intros H. unfold getUsers, bind.
  destruct (rdb_Get "users" (mkWorld rs n m t fs cs ls)) as [c w1] eqn:E.
  cbn [fst] in H. subst c.
  rewrite rdb_Get_eq in E. now inversion E.
Qed.

Lemma getUsers_miss_quiet r e rs n m t fs cs ls :
  fst (rdb_Get "users" (mkWorld rs n m t fs cs ls)) = Err e ->
  forallb no_fault (take (2 + length rs) (tail fs)) = true ->
  getUsers r (mkWorld rs n m t fs cs ls)
  = (write_json (payload_of rs),
     mkWorld rs n (<["users" := users_entry rs t (2 * Minute)]> m) t
             (drop (3 + length rs) fs)
             (cs ++ RdbGet "users" :: DbQuery :: replicate (length rs) RowsScan
                 ++ [RdbSet "users" (payload_of rs) (2 * Minute)])
             ls).
Proof.
  intros H Hq.
  replace (2 + length rs)%nat with (1 + (length rs + 1))%nat in Hq by lia.
  rewrite forallb_take_add, forallb_take_add, !forallb_take_1 in Hq.
  apply andb_prop in Hq as [H1 Hq]. apply andb_prop in Hq as [H2 H3].
  unfold getUsers, bind.
  destruct (rdb_Get "users" (mkWorld rs n m t fs cs ls)) as [c w1] eqn:E.
  cbn [fst] in H. subst c.
  rewrite rdb_Get_eq in E. inversion E as [[E1 E2]]. clear E E1.
  rewrite db_Query_eq.
  destruct (next_outcome (tail fs)); [discriminate|].
  change (drop 1 (tail fs)) with (tail (tail fs)) in H2, H3.
  rewrite scan_rows_quiet by exact H2.
  rewrite Marshal_payload, rdb_Set_eq.
  destruct (next_outcome (drop (length rs) (tail (tail fs)))); [discriminate|].
  unfold users_entry. f_equal. f_equal.
  - now rewrite tail_drop, !drop_tail.
  - now rewrite <- !app_assoc.
Qed.

Lemma getUsers_miss_faulty r e rs n m t fs cs ls :
  fst (rdb_Get "users" (mkWorld rs n m t fs cs ls)) = Err e ->
  forallb no_fault (take (2 + length rs) (tail fs)) = false ->
  exists msg k cs',
    getUsers r (mkWorld rs n m t fs cs ls)
    = (http_Error msg StatusInternalServerError,
       mkWorld rs n m t (drop k fs) (cs ++ cs') ls).
Proof.
  intros H Hq.
  replace (2 + length rs)%nat with (1 + (length rs + 1))%nat in Hq by lia.
  rewrite forallb_take_add, forallb_take_add, !forallb_take_1 in Hq.
  change (drop 1 (tail fs)) with (tail (tail fs)) in Hq.
  unfold getUsers, bind.
  destruct (rdb_Get "users" (mkWorld rs n m t fs cs ls)) as [c w1] eqn:E.
  cbn [fst] in H. subst c.
  rewrite rdb_Get_eq in E. inversion E as [[E1 E2]]. clear E E1.
  rewrite db_Query_eq.
  destruct (next_outcome (tail fs)) as [msg|] eqn:E0.
  { exists msg, 2%nat, [RdbGet "users"; DbQuery]. cbn [ret Error].
    f_equal. f_equal.
    - now rewrite <- (drop_tail 1), <- (drop_tail 0).
    - now rewrite <- !app_assoc. }
  destruct (forallb no_fault (take (length rs) (tail (tail fs)))) eqn:E1.
  - rewrite scan_rows_quiet by exact E1.
    rewrite Marshal_payload, rdb_Set_eq.
    destruct (next_outcome (drop (length rs) (tail (tail fs)))) as [msg|] eqn:E3.
    + exists msg, (3 + length rs)%nat,
        (RdbGet "users" :: DbQuery :: replicate (length rs) RowsScan
           ++ [RdbSet "users" (payload_of rs) (2 * Minute)]).
      cbn [ret Error]. f_equal. f_equal.
      * now rewrite tail_drop, !drop_tail.
      * now rewrite <- !app_assoc.
    + discriminate.
  - destruct (scan_rows_faulty rs [] rs n m t (tail (tail fs))
                ((cs ++ [RdbGet "users"]) ++ [DbQuery]) ls E1) as (msg & k & E).
    rewrite E.
    exists msg, (S (S k)), (RdbGet "users" :: DbQuery :: replicate k RowsScan).
    cbn [ret Error]. f_equal. f_equal.
    + now rewrite !drop_tail.
    + now rewrite <- !app_assoc.
Qed.

(** ** The write paths *)

Section Writes.

Variable username_eq : string -> string -> bool.

Lemma write_handler_rejected k r msg w :
  accepted k r = inl msg ->
  write_handler username_eq k r w = (http_Error msg StatusBadRequest, w).
Proof.
  destruct k; cbn; unfold createUser, updateUser, deleteUser.
  - destruct (Decoder.Decode (Body r)); [discriminate|]. now intros [= <-].
  - destruct (Decoder.Decode (Body r)); [discriminate|]. now intros [= <-].
  - destruct (is_empty (query_get r "username")); [|discriminate]. now intros [= <-].
Qed.

Lemma write_handler_accepted k r s :
  accepted k r = inr s ->
  write_handler username_eq k r
  = (e <- db_Exec username_eq s ;;
     match e with
     | Err err => ret (http_Error (Error err) StatusInternalServerError)
     | Ok _ => _ <- updateCache ;; ret (write_header (success_status k))
     end).
Proof.
  destruct k; cbn; unfold createUser, updateUser, deleteUser.
  - destruct (Decoder.Decode (Body r)); [|discriminate]. now intros [= <-].
  - destruct (Decoder.Decode (Body r)); [|discriminate]. now intros [= <-].
  - destruct (is_empty (query_get r "username")); [discriminate|]. now intros [= <-].
Qed.

Lemma write_store_fault k r s msg rs n m t fs cs ls :
  accepted k r = inr s ->
  next_outcome fs = Some msg ->
  write_handler username_eq k r (mkWorld rs n m t fs cs ls)
  = (http_Error msg StatusInternalServerError,
     mkWorld rs n m t (tail fs) (cs ++ [DbExec s]) ls).
Proof.
  intros Ha Hf. rewrite (write_handler_accepted _ _ _ Ha).
  unfold bind. now rewrite db_Exec_eq, Hf.
Qed.



End Writes.

Lemma forallb_take_S (a : nat) (fs : list (option string)) :
  forallb no_fault (take (S a) fs)
  = no_fault (next_outcome fs) && forallb no_fault (take a (tail fs)).
Proof. destruct fs as [|[msg|] fs]; cbn; now rewrite ?take_nil. Qed.

Lemma no_fault_None (f : option string) : no_fault f = true -> f = None.
Proof. now destruct f. Qed.


(** ** Write, then read *)




(** ** Reading on a miss *)




(** ** Reading on a hit *)

(** C3.  For every list request whose probe of the key [users]
    succeeds, the handler answers 200 with the JSON content type and
    the payload found in the cache as its body; the probe is the only
    call it makes to an adapter, so the table is not queried, and the
    keyspace, with the entry's expiry, is left as it was. *)
Theorem list_hit_serves_cache (r : Request) (payload : string) (w : World) :
  fst (rdb_Get "users" w) = Ok payload ->
  let resp := fst (getUsers r w) in
  let w' := snd (getUsers r w) in
  hit_payload w = Some payload
  /\ status resp = StatusOK
  /\ content_type resp = Some "application/json"
  /\ body resp = payload
  /\ calls w' = calls w ++ [RdbGet "users"]
  /\ rdb w' = rdb w
  /\ now w' = now w
  /\ rows w' = rows w.
Proof.
  destruct w as [rs n m t fs cs ls]. intros Hp.
  rewrite (getUsers_hit_eq r payload _ _ _ _ _ _ _ Hp).
  cbn [fst snd rows next_id rdb now faults calls logs].
  split; [|repeat split].
  rewrite probe_outcome in Hp. unfold hit_payload, lookup_live. cbn [rdb now].
  destruct (next_outcome fs); [discriminate|].
  destruct (m !! "users") as [en|]; [|discriminate].
  destruct (live t en); [|discriminate].
  destruct (value en); congruence.
Qed.

(** The theorem at a read served from the cache. *)
Lemma list_hit_serves_cache_witness :
  fst (rdb_Get "users" (ann_cached [])) = Ok (payload_of [ann])
  /\ body (fst (getUsers list_request (ann_cached []))) = payload_of [ann]
  /\ calls (snd (getUsers list_request (ann_cached []))) = [RdbGet "users"].
Proof.
  split; [reflexivity|].
  pose proof (list_hit_serves_cache list_request (payload_of [ann]) (ann_cached [])
                eq_refl) as H.
  cbv zeta in H. destruct H as (_ & _ & _ & Hb & Hc & _).
  split; [exact Hb | exact Hc].
Defined.

(** C6.  On the miss path of a list request, when the query of the
    table and the scans go through (the serialization cannot fail) but
    the [SET] fails, the handler answers 500 with the error of the
    [SET] and not the rows it has just read; the keyspace is left as it
    was. *)
Theorem list_miss_cache_write_failure (r : Request) (e : error) (msg : string) (w : World) :
  fst (rdb_Get "users" w) = Err e ->
  quiet 1 (1 + length (rows w)) w = true ->
  fault_at (2 + length (rows w)) w = Some msg ->
  let resp := fst (getUsers r w) in
  let w' := snd (getUsers r w) in
  resp = http_Error msg StatusInternalServerError
  /\ rdb w' = rdb w
  /\ rows w' = rows w
  /\ calls w' = calls w ++ RdbGet "users" :: DbQuery
                   :: replicate (length (rows w)) RowsScan
                   ++ [RdbSet "users" (payload_of (rows w)) (2 * Minute)].
Proof.
  destruct w as [rs n m t fs cs ls].
  unfold quiet, fault_at. cbn [rows next_id rdb now faults calls logs].
  change (drop 1 fs) with (tail fs).
  intros Hp Hq Hf.
  rewrite forallb_take_S in Hq. apply andb_prop in Hq as [H1 H2].
  apply no_fault_None in H1.
  unfold getUsers, bind.
  destruct (rdb_Get "users" (mkWorld rs n m t fs cs ls)) as [c w1] eqn:E.
  cbn [fst] in Hp. subst c.
  rewrite rdb_Get_eq in E. inversion E as [[E1 E2]]. clear E E1.
  rewrite db_Query_eq, H1.
  rewrite scan_rows_quiet by exact H2.
  rewrite Marshal_payload, rdb_Set_eq.
  change (2 + length rs)%nat with (S (S (length rs))) in Hf.
  rewrite !drop_tail, Hf.
  cbn [fst snd ret Error rows next_id rdb now faults calls logs].
  repeat split. now rewrite <- !app_assoc.
Qed.

(** The theorem at a first read whose [SET] is refused. *)
Lemma list_miss_cache_write_failure_witness :
  fst (rdb_Get "users" (only_ann [None; None; None; Some "READONLY"])) = Err RedisNil
  /\ status (fst (getUsers list_request (only_ann [None; None; None; Some "READONLY"])))
     = StatusInternalServerError.
Proof.
  split; [reflexivity|].
  pose proof (list_miss_cache_write_failure list_request RedisNil "READONLY"
                (only_ann [None; None; None; Some "READONLY"])
                eq_refl eq_refl eq_refl) as H.
  cbv zeta in H. destruct H as (Hr & _). now rewrite Hr.
Defined.

(** ** Failures on the write paths *)



(** C7.  For every write request (create, update or delete) that passes
    the handler's check and whose store mutation fails, the handler
    answers 500 with the error of the store; the [Exec] is the only call
    it has made, so no refresh is attempted, and the table, the keyspace
    and the log are left as they were. *)
Theorem store_failure_aborts_write
    (username_eq : string -> string -> bool) (k : write) (r : Request) (s : stmt)
    (msg : string) (w : World) :
  accepted k r = inr s ->
  pending w = Some msg ->
  let resp := fst (write_handler username_eq k r w) in
  let w' := snd (write_handler username_eq k r w) in
  resp = http_Error msg StatusInternalServerError
  /\ calls w' = calls w ++ [DbExec s]
  /\ rdb w' = rdb w
  /\ hit_payload w' = hit_payload w
  /\ rows w' = rows w
  /\ logs w' = logs w.
Proof.
  destruct w as [rs n m t fs cs ls].
  unfold pending. cbn [rows next_id rdb now faults calls logs].
  intros Ha Hf.
  rewrite (write_store_fault username_eq _ _ _ _ rs n m t _ cs ls Ha Hf).
  cbn [fst snd rows next_id rdb now faults calls logs]. repeat split.
Qed.

(** The theorem at the deletion of ann with the database away. *)
Lemma store_failure_aborts_write_witness :
  let w := ann_cached [Some "invalid connection"] in
  accepted Delete delete_ann = inr (DeleteUser "ann")
  /\ pending w = Some "invalid connection"
  /\ status (fst (deleteUser String.eqb delete_ann w)) = 500
  /\ hit_payload (snd (deleteUser String.eqb delete_ann w)) = Some (payload_of [ann]).
Proof.
  cbv zeta. split; [reflexivity|]. split; [reflexivity|].
  pose proof (store_failure_aborts_write String.eqb Delete delete_ann
                (DeleteUser "ann") "invalid connection"
                (ann_cached [Some "invalid connection"]) eq_refl eq_refl) as H.
  cbv zeta in H. destruct H as (Hr & _ & _ & Hh & _).
  split; [exact (f_equal status Hr) | exact Hh].
Defined.

(** ** Requests that are turned away *)




(** ** The empty collection *)

(** C8 fails on the code.  After the only user is deleted, and on a
    first read of an empty table, the list request is answered 200 with
    the body [null], not the empty array: the slice the handler
    serializes was never appended to.  The handler of main.go writes
    [null] and a newline. *)
Theorem empty_collection_is_served_as_null :
  let deleted := deleteUser String.eqb delete_ann (only_ann []) in
  status (fst deleted) = StatusOK
  /\ rows (snd deleted) = []
  /\ fst (getUsers list_request (snd deleted)) = write_json "null"
  /\ fst (getUsers list_request empty_world) = write_json "null"
  /\ fst (Plain.getUsers list_request empty_world) = write_json ("null" +:+ newline)
  /\ body (fst (getUsers list_request empty_world)) <> "[]".
Proof.
  vm_compute. repeat split; discriminate.
Qed.

(** ** The generic key/value handlers *)

Lemma hit_payload_ext (w w' : World) :
  rdb w' !! "users" = rdb w !! "users" ->
  now w' = now w ->
  hit_payload w' = hit_payload w.
Proof.
  intros Hr Hn. unfold hit_payload, lookup_live. now rewrite Hr, Hn.
Qed.

Lemma rdb_Get_keeps key w : rdb (snd (rdb_Get key w)) = rdb w /\ now (snd (rdb_Get key w)) = now w.
Proof. destruct w. now rewrite rdb_Get_eq. Qed.

Lemma rdb_Set_other key val ttl w :
  key <> "users" ->
  hit_payload (snd (rdb_Set key val ttl w)) = hit_payload w.
Proof.
  intros Hk. destruct w as [rs n m t fs cs ls]. rewrite rdb_Set_eq.
  destruct (next_outcome fs); [reflexivity|].
  apply hit_payload_ext; [|reflexivity]. cbn. now apply lookup_insert_ne.
Qed.

Lemma rdb_RPush_keeps key values w :
  hit_payload (snd (rdb_RPush key values w)) = hit_payload w.
Proof.
  destruct w as [rs n m t fs cs ls].
  unfold rdb_RPush, bind, adapter_call, get_world, set_rdb, ret, pending. cbn.
  destruct (next_outcome fs); [reflexivity|].
  unfold hit_payload, lookup_live. cbn.
  destruct (decide (key = "users")) as [->|Hk].
  - destruct (m !! "users") as [e|] eqn:E; cbn.
    + destruct (live t e) eqn:L; cbn.
      * destruct (value e) eqn:V; cbn; rewrite ?E, ?L, ?V; try reflexivity.
        rewrite lookup_insert_eq. unfold live in *. cbn. now rewrite L.
      * now rewrite lookup_insert_eq.
    + now rewrite lookup_insert_eq.
  - destruct (m !! key) as [e|]; cbn.
    + destruct (live t e); cbn.
      * destruct (value e); cbn; rewrite ?lookup_insert_ne by exact Hk; reflexivity.
      * now rewrite lookup_insert_ne by exact Hk.
    + now rewrite lookup_insert_ne by exact Hk.
Qed.

Lemma rdb_HSet_keeps key field val w :
  hit_payload (snd (rdb_HSet key field val w)) = hit_payload w.
Proof.
  destruct w as [rs n m t fs cs ls].
  unfold rdb_HSet, bind, adapter_call, get_world, set_rdb, ret, pending. cbn.
  destruct (next_outcome fs); [reflexivity|].
  unfold hit_payload, lookup_live. cbn.
  destruct (decide (key = "users")) as [->|Hk].
  - destruct (m !! "users") as [e|] eqn:E; cbn.
    + destruct (live t e) eqn:L; cbn.
      * destruct (value e) eqn:V; cbn; rewrite ?E, ?L, ?V; try reflexivity.
        rewrite lookup_insert_eq. unfold live in *. cbn. now rewrite L.
      * now rewrite lookup_insert_eq.
    + now rewrite lookup_insert_eq.
  - destruct (m !! key) as [e|]; cbn.
    + destruct (live t e); cbn.
      * destruct (value e); cbn; rewrite ?lookup_insert_ne by exact Hk; reflexivity.
      * now rewrite lookup_insert_ne by exact Hk.
    + now rewrite lookup_insert_ne by exact Hk.
Qed.

(** What [hit_payload] names is what a hit serves. *)
Lemma hit_payload_served (r : Request) (payload : string) (w : World) :
  pending w = None ->
  hit_payload w = Some payload ->
  fst (getUsers r w) = write_json payload.
Proof.
  destruct w as [rs n m t fs cs ls]. unfold pending, hit_payload, lookup_live.
  cbn [rdb now faults]. intros Hf Hh.
  erewrite getUsers_hit_eq; [reflexivity|].
  rewrite probe_outcome, Hf.
  destruct (m !! "users") as [e|]; [|discriminate].
  destruct (live t e); [|discriminate].
  destruct (value e); congruence.
Qed.

(** C9, as the spec words it, does not hold for every key: set-string
    with the key [users] replaces the cached collection by the caller's
    value, and the list request that follows is served that value. *)
Lemma set_string_overwrites_collection :
  let w := ann_cached [] in
  let w' := snd (setString set_users_key w) in
  status (fst (setString set_users_key w)) = StatusOK
  /\ hit_payload w = Some (payload_of [ann])
  /\ body (fst (getUsers list_request w)) = payload_of [ann]
  /\ hit_payload w' = Some "oops"
  /\ body (fst (getUsers list_request w')) = "oops"
  /\ rdb w' !! "users" = Some (mkEntry (RString "oops") None).
Proof.
  vm_compute. repeat split.
Qed.

Lemma generic_handler_keeps (g : generic) (r : Request) (w : World) :
  (g = SetString -> query_get r "key" <> "users") ->
  hit_payload (snd (generic_handler g r w)) = hit_payload w.
Proof.
  intros Hk. destruct g; cbn [generic_handler].
  - unfold setString.
    destruct (is_empty (query_get r "key") || is_empty (query_get r "value"));
      [reflexivity|].
    unfold bind.
    pose proof (rdb_Set_other (query_get r "key") (query_get r "value") 0 w (Hk eq_refl))
      as H.
    destruct (rdb_Set (query_get r "key") (query_get r "value") 0 w) as [[u|err] w1];
      exact H.
  - unfold getString. destruct (is_empty (query_get r "key")); [reflexivity|].
    unfold bind. pose proof (rdb_Get_keeps (query_get r "key") w) as [H1 H2].
    destruct (rdb_Get (query_get r "key") w) as [[v|err] w1];
      unfold ret; cbn [snd] in *;
      (apply hit_payload_ext; [now rewrite H1 | exact H2]).
  - unfold setList.
    destruct (is_empty (query_get r "key") || (length (query_values r "value") =? 0)%nat);
      [reflexivity|].
    unfold bind.
    pose proof (rdb_RPush_keeps (query_get r "key") (query_values r "value") w) as H.
    destruct (rdb_RPush (query_get r "key") (query_values r "value") w) as [[u|err] w1];
      exact H.
  - unfold getList. destruct (is_empty (query_get r "key")); [reflexivity|].
    unfold bind. destruct w as [rs n m t fs cs ls].
    unfold rdb_LRange, bind, adapter_call, get_world, ret, pending. cbn.
    destruct (next_outcome fs); [reflexivity|].
    now destruct (match lookup_live _ _ with Some _ => _ | None => _ end).
  - unfold setHash.
    destruct (is_empty (query_get r "key") || is_empty (query_get r "field")
              || is_empty (query_get r "value")); [reflexivity|].
    unfold bind.
    pose proof (rdb_HSet_keeps (query_get r "key") (query_get r "field")
                  (query_get r "value") w) as H.
    destruct (rdb_HSet (query_get r "key") (query_get r "field") (query_get r "value") w)
      as [[u|err] w1]; exact H.
  - unfold getHash.
    destruct (is_empty (query_get r "key") || is_empty (query_get r "field"));
      [reflexivity|].
    unfold bind. destruct w as [rs n m t fs cs ls].
    unfold rdb_HGet, bind, adapter_call, get_world, ret, pending. cbn.
    destruct (next_outcome fs); [reflexivity|].
    now destruct (match lookup_live _ _ with Some _ => _ | None => _ end).
Qed.

(** C9 (amended).  A generic key/value request leaves the payload that
    a cache hit of the list request serves unchanged, for every key the
    caller supplies, unless it is set-string with the key [users]:
    set-list and set-hash are refused by Redis on a key that holds a
    string, and the get operations write nothing.  So a list request
    that follows and hits the cache is served the payload that was
    cached before the generic request. *)
Theorem generic_handlers_keep_collection (g : generic) (r : Request) (w : World) :
  (g = SetString -> query_get r "key" <> "users") ->
  let w' := snd (generic_handler g r w) in
  hit_payload w' = hit_payload w
  /\ forall r' payload,
       fst (rdb_Get "users" w') = Ok payload ->
       hit_payload w = Some payload
       /\ fst (getUsers r' w') = write_json payload.
Proof.
  intros Hk w'. pose proof (generic_handler_keeps g r w Hk) as Hkeep.
  split; [exact Hkeep|].
  intros r' payload Hp. fold w' in Hkeep. rewrite <- Hkeep.
  destruct w' as [rs n m t fs cs ls].
  split.
  - rewrite probe_outcome in Hp. unfold hit_payload, lookup_live. cbn [rdb now].
    destruct (next_outcome fs); [discriminate|].
    destruct (m !! "users") as [en|]; [|discriminate].
    destruct (live t en); [|discriminate].
    destruct (value en); congruence.
  - now rewrite (getUsers_hit_eq r' payload _ _ _ _ _ _ _ Hp).
Qed.

(** The theorem at set-string on another key, then a list request. *)
Lemma generic_handlers_keep_collection_witness :
  query_get set_greeting "key" <> "users"
  /\ hit_payload (snd (setString set_greeting (ann_cached []))) = Some (payload_of [ann])
  /\ fst (getUsers list_request (snd (setString set_greeting (ann_cached []))))
     = write_json (payload_of [ann]).
Proof.
  assert (query_get set_greeting "key" <> "users") as Hk by discriminate.
  split; [exact Hk|].
  pose proof (generic_handlers_keep_collection SetString set_greeting (ann_cached [])
                (fun _ => Hk)) as H.
  cbv zeta in H. destruct H as [Hkeep Hserved].
  split; [exact Hkeep|].
  exact (proj2 (Hserved list_request (payload_of [ann]) eq_refl)).
Defined.

(** ** The expiry of the collection entry *)





(** * Further properties of the handlers *)

(** ** Redis commands on a world written out *)

Lemma rdb_RPush_eq key values rs n m t fs cs ls :
  rdb_RPush key values (mkWorld rs n m t fs cs ls)
  = let w1 := mkWorld rs n m t (tail fs) (cs ++ [RdbRPush key values]) ls in
    match next_outcome fs with
    | Some msg => (Err (Fault msg), w1)
    | None =>
        match list_at w1 key with
        | Some items =>
            (Ok tt,
             mkWorld rs n
               (<[key := mkEntry (RList (items ++ values))
                           (match lookup_live w1 key with
                            | Some e => expire_at e
                            | None => None
                            end)]> m)
               t (tail fs) (cs ++ [RdbRPush key values]) ls)
        | None => (Err WrongType, w1)
        end
    end.
Proof.
  unfold rdb_RPush, bind, adapter_call, get_world, set_rdb, ret, pending, list_at. cbn.
  destruct (next_outcome fs); [reflexivity|].
  destruct (lookup_live _ key) as [e|]; [|reflexivity].
  now destruct (value e).
Qed.

Lemma rdb_LRange_eq key rs n m t fs cs ls :
  rdb_LRange key (mkWorld rs n m t fs cs ls)
  = let w1 := mkWorld rs n m t (tail fs) (cs ++ [RdbLRange key]) ls in
    (match next_outcome fs with
     | Some msg => Err (Fault msg)
     | None =>
         match list_at w1 key with
         | Some items => Ok items
         | None => Err WrongType
         end
     end, w1).
Proof.
  unfold rdb_LRange, bind, adapter_call, get_world, ret, pending, list_at. cbn.
  destruct (next_outcome fs); [reflexivity|].
  destruct (lookup_live _ key) as [e|]; [|reflexivity].
  now destruct (value e).
Qed.

Lemma rdb_HSet_eq key field val rs n m t fs cs ls :
  rdb_HSet key field val (mkWorld rs n m t fs cs ls)
  = let w1 := mkWorld rs n m t (tail fs) (cs ++ [RdbHSet key field val]) ls in
    match next_outcome fs with
    | Some msg => (Err (Fault msg), w1)
    | None =>
        match hash_at w1 key with
        | Some fields =>
            (Ok tt,
             mkWorld rs n
               (<[key := mkEntry (RHash (<[field := val]> fields))
                           (match lookup_live w1 key with
                            | Some e => expire_at e
                            | None => None
                            end)]> m)
               t (tail fs) (cs ++ [RdbHSet key field val]) ls)
        | None => (Err WrongType, w1)
        end
    end.
Proof.
  unfold rdb_HSet, bind, adapter_call, get_world, set_rdb, ret, pending, hash_at. cbn.
  destruct (next_outcome fs); [reflexivity|].
  destruct (lookup_live _ key) as [e|]; [|now rewrite insert_empty].
  now destruct (value e).
Qed.

Lemma rdb_HGet_eq key field rs n m t fs cs ls :
  rdb_HGet key field (mkWorld rs n m t fs cs ls)
  = let w1 := mkWorld rs n m t (tail fs) (cs ++ [RdbHGet key field]) ls in
    (match next_outcome fs with
     | Some msg => Err (Fault msg)
     | None =>
         match hash_at w1 key with
         | Some fields =>
             match fields !! field with
             | Some v => Ok v
             | None => Err RedisNil
             end
         | None => Err WrongType
         end
     end, w1).
Proof.
  unfold rdb_HGet, bind, adapter_call, get_world, ret, pending, hash_at. cbn.
  destruct (next_outcome fs); [reflexivity|].
  destruct (lookup_live _ key) as [e|]; [|reflexivity].
  now destruct (value e).
Qed.

(** The generic handlers on a world written out. *)
Ltac run_generic :=
  unfold generic_handler, setString, getString, setList, getList, setHash, getHash;
  cbv zeta;
  match goal with
  | |- context [if ?b then ret _ else _] => destruct b
  end;
  unfold bind, ret;
  rewrite ?rdb_Set_eq, ?rdb_Get_eq, ?rdb_RPush_eq, ?rdb_LRange_eq, ?rdb_HSet_eq,
    ?rdb_HGet_eq;
  cbv zeta.

Ltac split_outcomes :=
  repeat match goal with
    | |- context [match next_outcome ?fs with _ => _ end] => destruct (next_outcome fs)
    | |- context [match list_at ?w ?k with _ => _ end] => destruct (list_at w k)
    | |- context [match hash_at ?w ?k with _ => _ end] => destruct (hash_at w k)
    | |- context [match lookup_live ?w ?k with _ => _ end] => destruct (lookup_live w k)
    | |- context [match value ?e with _ => _ end] => destruct (value e)
    | |- context [match ?m !! ?f with _ => _ end] => destruct (m !! f)
    end.

(** ** The generic handlers: parameters and footprint *)



(** A generic handler never reaches the database: it leaves the table,
    its counter, the clock and the log as they are and makes at most one
    call, which goes to Redis. *)
Theorem generic_handlers_leave_store (g : generic) (r : Request) (w : World) :
  let w' := snd (generic_handler g r w) in
  rows w' = rows w
  /\ next_id w' = next_id w
  /\ now w' = now w
  /\ logs w' = logs w
  /\ (calls w' = calls w
      \/ exists c, calls w' = calls w ++ [c] /\ is_rdb_call c = true).
Proof.
  destruct w as [rs n m t fs cs ls].
  destruct g;
    (run_generic;
     [ cbn; repeat split; now left
     | split_outcomes; cbn; repeat split; right; eexists; split; reflexivity ]).
Qed.

(** ** The generic handlers: what is written can be read *)



(** Set-list appends: when the key holds a list (the empty one when the
    key is absent), a successful set-list leaves the old items followed
    by the request's values in the order of the URL, and get-list on the
    same key then answers them between brackets, separated by spaces. *)
Theorem set_list_appends (r r' : Request) (w : World) (items : list string) :
  is_empty (query_get r "key") = false ->
  query_values r "value" <> [] ->
  quiet 0 2 w = true ->
  list_at w (query_get r "key") = Some items ->
  query_get r' "key" = query_get r "key" ->
  let w1 := snd (setList r w) in
  fst (setList r w) = write_header StatusOK
  /\ list_at w1 (query_get r "key") = Some (items ++ query_values r "value")
  /\ fst (getList r' w1)
     = write_text ("Values for key " +:+ query_get r "key" +:+ ": ["
                   +:+ Json.join " " (items ++ query_values r "value") +:+ "]" +:+ newline).
Proof.
  destruct w as [rs n m t fs cs ls]. unfold quiet. cbn [faults drop].
  intros Hk Hv Hq Hl Hk'.
  change (drop 0 fs) with fs in Hq.
  change 2%nat with (S 1) in Hq. rewrite forallb_take_S, forallb_take_1 in Hq.
  apply andb_prop in Hq as [H0 H1].
  apply no_fault_None in H0. apply no_fault_None in H1.
  assert (forall fs' cs',
            list_at (mkWorld rs n
                       (<[query_get r "key" :=
                            mkEntry (RList (items ++ query_values r "value"))
                              (match lookup_live (mkWorld rs n m t (tail fs)
                                        (cs ++ [RdbRPush (query_get r "key")
                                                  (query_values r "value")]) ls)
                                       (query_get r "key") with
                               | Some e => expire_at e
                               | None => None
                               end)]> m) t fs' cs' ls) (query_get r "key")
            = Some (items ++ query_values r "value")) as Hafter.
  { intros fs' cs'. unfold list_at, lookup_live in *. cbn [rdb now] in *.
    rewrite lookup_insert_eq.
    destruct (m !! query_get r "key") as [e|]; [|reflexivity].
    destruct (live t e) eqn:L; [|reflexivity]. cbn. unfold live in *. cbn.
    now rewrite L. }
  unfold setList, getList. cbv zeta. rewrite Hk', Hk. cbn [orb].
  destruct (query_values r "value") as [|v vs] eqn:Ev; [congruence|].
  cbn [length Nat.eqb]. unfold bind.
  rewrite rdb_RPush_eq, H0. cbv zeta.
  change (list_at (mkWorld rs n m t (tail fs) (cs ++ [RdbRPush (query_get r "key") (v :: vs)]) ls)
            (query_get r "key"))
    with (list_at (mkWorld rs n m t fs cs ls) (query_get r "key")).
  rewrite Hl. cbn [fst snd ret].
  split; [reflexivity|]. split; [apply Hafter|].
  rewrite rdb_LRange_eq, H1. cbv zeta.
  match goal with
  | |- context [list_at ?W _] =>
      change (list_at W (query_get r "key"))
        with (list_at (mkWorld rs n (rdb W) t [] [] ls) (query_get r "key"))
  end.
  cbn [rdb]. rewrite Hafter. reflexivity.
Qed.

(** The theorem at two pushes to one key. *)
Lemma set_list_appends_witness :
  let w := snd (setList push_first (only_ann [])) in
  list_at w "queue" = Some ["a"; "b"]
  /\ fst (getList get_queue (snd (setList push_more w)))
     = write_text ("Values for key queue: [a b c]" +:+ newline).
Proof.
  cbv zeta. split; [reflexivity|].
  assert (query_values push_more "value" <> []) as Hv by discriminate.
  exact (proj2 (proj2 (set_list_appends push_more get_queue
                         (snd (setList push_first (only_ann []))) ["a"; "b"]
                         eq_refl Hv eq_refl eq_refl eq_refl))).
Defined.

(** Set-hash writes one field: when the key holds a hash (the empty one
    when the key is absent), a successful set-hash leaves that hash with
    the field set to the value, and get-hash on the same key then
    answers the new value for that field and, for any other field, what
    the hash held before ([redis: nil] with status 500 when it held
    nothing). *)
Theorem set_hash_then_get_hash (r r' : Request) (w : World) (fields : gmap string string) :
  is_empty (query_get r "key") = false ->
  is_empty (query_get r "field") = false ->
  is_empty (query_get r "value") = false ->
  quiet 0 2 w = true ->
  hash_at w (query_get r "key") = Some fields ->
  query_get r' "key" = query_get r "key" ->
  is_empty (query_get r' "field") = false ->
  let w1 := snd (setHash r w) in
  fst (setHash r w) = write_header StatusOK
  /\ hash_at w1 (query_get r "key")
     = Some (<[query_get r "field" := query_get r "value"]> fields)
  /\ fst (getHash r' w1)
     = match <[query_get r "field" := query_get r "value"]> fields
             !! query_get r' "field" with
       | Some v =>
           write_text ("Value for field " +:+ query_get r' "field" +:+ " in key "
                       +:+ query_get r "key" +:+ ": " +:+ v +:+ newline)
       | None => http_Error "redis: nil" StatusInternalServerError
       end.
Proof.
  destruct w as [rs n m t fs cs ls]. unfold quiet. cbn [faults].
  intros Hk Hfd Hv Hq Hh Hk' Hfd'.
  change (drop 0 fs) with fs in Hq.
  change 2%nat with (S 1) in Hq. rewrite forallb_take_S, forallb_take_1 in Hq.
  apply andb_prop in Hq as [H0 H1].
  apply no_fault_None in H0. apply no_fault_None in H1.
  assert (forall fs' cs',
            hash_at (mkWorld rs n
                       (<[query_get r "key" :=
                            mkEntry (RHash (<[query_get r "field" := query_get r "value"]>
                                              fields))
                              (match lookup_live (mkWorld rs n m t (tail fs)
                                        (cs ++ [RdbHSet (query_get r "key")
                                                  (query_get r "field")
                                                  (query_get r "value")]) ls)
                                       (query_get r "key") with
                               | Some e => expire_at e
                               | None => None
                               end)]> m) t fs' cs' ls) (query_get r "key")
            = Some (<[query_get r "field" := query_get r "value"]> fields)) as Hafter.
  { intros fs' cs'. unfold hash_at, lookup_live in *. cbn [rdb now] in *.
    rewrite lookup_insert_eq.
    destruct (m !! query_get r "key") as [e|]; [|reflexivity].
    destruct (live t e) eqn:L; [|reflexivity]. cbn. unfold live in *. cbn.
    now rewrite L. }
  unfold setHash, getHash. cbv zeta. rewrite Hk', Hk, Hfd, Hv, Hfd'. cbn [orb].
  unfold bind. rewrite rdb_HSet_eq, H0. cbv zeta.
  change (hash_at (mkWorld rs n m t (tail fs)
                     (cs ++ [RdbHSet (query_get r "key") (query_get r "field")
                               (query_get r "value")]) ls) (query_get r "key"))
    with (hash_at (mkWorld rs n m t fs cs ls) (query_get r "key")).
  rewrite Hh. cbn [fst snd ret].
  split; [reflexivity|]. split; [apply Hafter|].
  rewrite rdb_HGet_eq, H1. cbv zeta.
  match goal with
  | |- context [hash_at ?W _] =>
      change (hash_at W (query_get r "key"))
        with (hash_at (mkWorld rs n (rdb W) t [] [] ls) (query_get r "key"))
  end.
  cbn [rdb]. rewrite Hafter.
  now destruct (<[query_get r "field" := query_get r "value"]> fields
                  !! query_get r' "field").
Qed.

(** The theorem at a field written and read back. *)
Lemma set_hash_then_get_hash_witness :
  fst (getHash get_color (snd (setHash set_color (only_ann []))))
  = write_text ("Value for field color in key car: red" +:+ newline).
Proof.
  exact (proj2 (proj2 (set_hash_then_get_hash set_color get_color (only_ann []) ∅
                         eq_refl eq_refl eq_refl eq_refl eq_refl eq_refl eq_refl))).
Defined.

(** ** The generic handlers: keys that are absent or of another type *)

(** A key that is absent or has expired: get-string and get-hash answer
    500 with [redis: nil], while get-list answers 200 with an empty
    pair of brackets. *)
Theorem get_of_absent_key (r : Request) (w : World) :
  is_empty (query_get r "key") = false ->
  pending w = None ->
  lookup_live w (query_get r "key") = None ->
  fst (getString r w) = http_Error "redis: nil" StatusInternalServerError
  /\ fst (getList r w)
     = write_text ("Values for key " +:+ query_get r "key" +:+ ": []" +:+ newline)
  /\ (is_empty (query_get r "field") = false ->
      fst (getHash r w) = http_Error "redis: nil" StatusInternalServerError).
Proof.
  destruct w as [rs n m t fs cs ls]. unfold pending. cbn [faults].
  intros Hk Hf Hl.
  unfold getString, getList, getHash. cbv zeta. rewrite Hk. cbn [orb]. unfold bind.
  rewrite rdb_Get_eq, rdb_LRange_eq, Hf. cbv zeta.
  unfold list_at.
  change (lookup_live (mkWorld rs n m t (tail fs) (cs ++ [RdbGet (query_get r "key")]) ls)
            (query_get r "key"))
    with (lookup_live (mkWorld rs n m t fs cs ls) (query_get r "key")).
  change (lookup_live (mkWorld rs n m t (tail fs) (cs ++ [RdbLRange (query_get r "key")]) ls)
            (query_get r "key"))
    with (lookup_live (mkWorld rs n m t fs cs ls) (query_get r "key")).
  rewrite Hl. split; [reflexivity|]. split; [reflexivity|].
  intros Hfd. rewrite Hfd, rdb_HGet_eq, Hf. cbv zeta. unfold hash_at.
  change (lookup_live (mkWorld rs n m t (tail fs)
                         (cs ++ [RdbHGet (query_get r "key") (query_get r "field")]) ls)
            (query_get r "key"))
    with (lookup_live (mkWorld rs n m t fs cs ls) (query_get r "key")).
  rewrite Hl. now rewrite lookup_empty.
Qed.

(** The theorem on a keyspace without the key. *)
Lemma get_of_absent_key_witness :
  status (fst (getString get_queue (only_ann []))) = StatusInternalServerError
  /\ fst (getList get_queue (only_ann []))
     = write_text ("Values for key queue: []" +:+ newline).
Proof.
  destruct (get_of_absent_key get_queue (only_ann []) eq_refl eq_refl eq_refl)
    as (Hs & Hl & _).
  split; [exact (f_equal status Hs) | exact Hl].
Defined.

(** A key that holds a string is closed to the list and hash handlers:
    set-list, get-list, set-hash and get-hash on it answer 500 with the
    wrong-type error of Redis, and the keyspace is left as it was, so
    get-string still answers the string. *)
Theorem string_key_refuses_list_and_hash (r : Request) (w : World) (e : entry) (s : string) :
  is_empty (query_get r "key") = false ->
  pending w = None ->
  lookup_live w (query_get r "key") = Some e ->
  value e = RString s ->
  let refused := http_Error (Error WrongType) StatusInternalServerError in
  (query_values r "value" <> [] ->
     fst (setList r w) = refused /\ rdb (snd (setList r w)) = rdb w)
  /\ fst (getList r w) = refused
  /\ (is_empty (query_get r "field") = false ->
      fst (getHash r w) = refused
      /\ (is_empty (query_get r "value") = false ->
          fst (setHash r w) = refused /\ rdb (snd (setHash r w)) = rdb w))
  /\ fst (getString r w)
     = write_text ("Value for key " +:+ query_get r "key" +:+ ": " +:+ s +:+ newline).
Proof.
  destruct w as [rs n m t fs cs ls]. unfold pending. cbn [faults].
  intros Hk Hf Hl Hv. cbv zeta.
  assert (forall fs' cs', lookup_live (mkWorld rs n m t fs' cs' ls) (query_get r "key")
                          = Some e) as Hl' by (intros; exact Hl).
  unfold setList, getList, setHash, getHash, getString. cbv zeta.
  rewrite Hk. cbn [orb]. unfold bind.
  rewrite rdb_Get_eq, rdb_LRange_eq, Hf. cbv zeta. unfold list_at.
  rewrite !Hl', Hv.
  split; [|split; [reflexivity|split; [|reflexivity]]].
  - intros Hvals. destruct (query_values r "value") as [|v vs]; [congruence|].
    cbn [length Nat.eqb]. rewrite rdb_RPush_eq, Hf. cbv zeta. unfold list_at.
    rewrite Hl', Hv. split; reflexivity.
  - intros Hfd. rewrite Hfd. cbn [orb]. rewrite rdb_HGet_eq, Hf. cbv zeta.
    unfold hash_at. rewrite Hl', Hv. split; [reflexivity|].
    intros Hval. rewrite Hval, rdb_HSet_eq, Hf. cbv zeta. unfold hash_at.
    rewrite Hl', Hv. split; reflexivity.
Qed.

(** The theorem at a push to a key set by set-string. *)
Lemma string_key_refuses_list_and_hash_witness :
  let w := snd (setString set_greeting (only_ann [])) in
  status (fst (setList push_greeting w)) = StatusInternalServerError
  /\ fst (getString get_greeting (snd (setList push_greeting w)))
     = write_text ("Value for key greeting: hello" +:+ newline).
Proof.
  cbv zeta.
  assert (query_values push_greeting "value" <> []) as Hv by discriminate.
  pose proof (string_key_refuses_list_and_hash push_greeting
                (snd (setString set_greeting (only_ann [])))
                (mkEntry (RString "hello") None) "hello"
                eq_refl eq_refl eq_refl eq_refl) as H.
  cbv zeta in H. destruct H as (Hpush & _).
  split; [exact (f_equal status (proj1 (Hpush Hv))) | reflexivity].
Defined.

(** ** The handlers of main.go *)

Lemma updateCache_table rs n m t fs cs ls :
  exists m' fs' cs' ls',
    updateCache (mkWorld rs n m t fs cs ls) = (tt, mkWorld rs n m' t fs' cs' ls').
Proof.
  destruct (forallb no_fault (take (2 + length rs) fs)) eqn:Hq.
  - rewrite (updateCache_quiet _ _ _ _ _ _ _ Hq). now eexists _, _, _, _.
  - destruct (updateCache_faulty rs n m t fs cs ls Hq) as (p & msg & k & cs' & _ & E).
    rewrite E. now eexists _, _, _, _.
Qed.

Lemma write_outcome username_eq k r s rs n m t fs cs ls :
  accepted k r = inr s ->
  next_outcome fs = None ->
  exists m' fs' cs' ls',
    write_handler username_eq k r (mkWorld rs n m t fs cs ls)
    = (write_header (success_status k),
       mkWorld (fst (run_stmt username_eq s rs n)) (snd (run_stmt username_eq s rs n))
               m' t fs' cs' ls').
Proof.
  intros Ha Hf. rewrite (write_handler_accepted _ _ _ _ Ha).
  unfold bind. rewrite db_Exec_eq, Hf.
  destruct (updateCache_table (fst (run_stmt username_eq s rs n))
              (snd (run_stmt username_eq s rs n)) m t (tail fs) (cs ++ [DbExec s]) ls)
    as (m' & fs' & cs' & ls' & E).
  rewrite E. now exists m', fs', cs', ls'.
Qed.

Lemma plain_write_eq username_eq k r rs n m t fs cs ls :
  plain_write_handler username_eq k r (mkWorld rs n m t fs cs ls)
  = match accepted k r with
    | inl msg => (http_Error msg StatusBadRequest, mkWorld rs n m t fs cs ls)
    | inr s =>
        match next_outcome fs with
        | Some msg =>
            (http_Error msg StatusInternalServerError,
             mkWorld rs n m t (tail fs) (cs ++ [DbExec s]) ls)
        | None =>
            (write_header (success_status k),
             mkWorld (fst (run_stmt username_eq s rs n))
                     (snd (run_stmt username_eq s rs n))
                     m t (tail fs) (cs ++ [DbExec s]) ls)
        end
    end.
Proof.
  destruct k; cbn [plain_write_handler accepted success_status];
    unfold Plain.createUser, Plain.updateUser, Plain.deleteUser; cbv zeta.
  - destruct (Decoder.Decode (Body r)); [|reflexivity].
    unfold bind. rewrite db_Exec_eq. now destruct (next_outcome fs).
  - destruct (Decoder.Decode (Body r)); [|reflexivity].
    unfold bind. rewrite db_Exec_eq. now destruct (next_outcome fs).
  - destruct (is_empty (query_get r "username")); [reflexivity|].
    unfold bind. rewrite db_Exec_eq. now destruct (next_outcome fs).
Qed.


(** With or without the cache a write request gets the same answer and
    leaves the same table: the cached handlers differ from those of
    main.go only in what they do to Redis and to the log. *)
Theorem cache_does_not_change_writes
    (username_eq : string -> string -> bool) (k : write) (r : Request) (w : World) :
  fst (write_handler username_eq k r w) = fst (plain_write_handler username_eq k r w)
  /\ rows (snd (write_handler username_eq k r w))
     = rows (snd (plain_write_handler username_eq k r w))
  /\ next_id (snd (write_handler username_eq k r w))
     = next_id (snd (plain_write_handler username_eq k r w)).
Proof.
  destruct w as [rs n m t fs cs ls]. rewrite plain_write_eq.
  destruct (accepted k r) as [msg|s] eqn:Ha.
  - rewrite (write_handler_rejected username_eq _ _ _ _ Ha). repeat split.
  - destruct (next_outcome fs) as [msg|] eqn:Hf.
    + rewrite (write_store_fault username_eq _ _ _ _ rs n m t _ cs ls Ha Hf). repeat split.
    + destruct (write_outcome username_eq k r s rs n m t fs cs ls Ha Hf)
        as (m' & fs' & cs' & ls' & E).
      rewrite E. repeat split.
Qed.





(** ** What the write handlers do to the table *)

Section Table.

Variable username_eq : string -> string -> bool.

Lemma update_of_absent (email name : string) (rs : list User) :
  Forall (fun u => username_eq (Username u) name = false) rs ->
  map (fun u => if username_eq (Username u) name
                then mkUser (ID u) (Username u) email else u) rs = rs.
Proof.
  induction 1 as [|u rs Hu _ IH]; cbn; [reflexivity|]. now rewrite Hu, IH.
Qed.

Lemma delete_of_absent (name : string) (rs : list User) :
  Forall (fun u => username_eq (Username u) name = false) rs ->
  List.filter (fun u => negb (username_eq (Username u) name)) rs = rs.
Proof.
  induction 1 as [|u rs Hu _ IH]; cbn; [reflexivity|]. now rewrite Hu, IH.
Qed.

Lemma delete_leaves_no_match (name : string) (rs : list User) :
  Forall (fun u => username_eq (Username u) name = false)
         (List.filter (fun u => negb (username_eq (Username u) name)) rs).
Proof.
  induction rs as [|u rs IH]; cbn; [constructor|].
  destruct (username_eq (Username u) name) eqn:E; cbn; [exact IH|].
  now constructor.
Qed.

Lemma run_stmt_keyed (s : stmt) (rs : list User) (n : Z) :
  NoDup (map ID rs) ->
  Forall (fun u => ID u < n) rs ->
  NoDup (map ID (fst (run_stmt username_eq s rs n)))
  /\ Forall (fun u => ID u < snd (run_stmt username_eq s rs n))
            (fst (run_stmt username_eq s rs n)).
Proof.
  intros Hnd Hlt. destruct s as [username email|email username|username]; cbn [run_stmt fst snd].
  - split.
    + rewrite map_app. cbn. apply NoDup_app. split; [exact Hnd|]. split.
      * intros x Hx Hin. apply list_elem_of_singleton in Hin. subst x.
        apply list_elem_of_fmap in Hx as (u & Hu & Hin).
        rewrite Forall_forall in Hlt. specialize (Hlt u Hin). cbn in Hlt. lia.
      * apply NoDup_singleton.
    + apply Forall_app. split.
      * eapply Forall_impl; [exact Hlt|]. cbn. intros; lia.
      * constructor; [cbn; lia | constructor].
  - split.
    + rewrite map_map.
      erewrite map_ext; [exact Hnd|].
      intros u. now destruct (username_eq (Username u) username).
    + apply Forall_forall. intros u' Hin.
      apply list_elem_of_fmap in Hin as (u & -> & Hin).
      rewrite Forall_forall in Hlt. specialize (Hlt u Hin).
      now destruct (username_eq (Username u) username).
  - induction rs as [|u rs IH]; cbn; [split; constructor|].
    inversion Hnd as [|x xs Hx Hxs]; subst. inversion Hlt as [|y ys Hy Hys]; subst.
    destruct (IH Hxs Hys) as [IH1 IH2].
    destruct (username_eq (Username u) username); cbn; [now split|].
    split; [|now constructor].
    constructor; [|exact IH1].
    intros Hin. apply Hx.
    apply list_elem_of_fmap in Hin as (u' & Hu' & Hin).
    apply list_elem_of_fmap. exists u'. split; [exact Hu'|].
    apply list_elem_of_In. apply list_elem_of_In in Hin.
    now apply filter_In in Hin as [Hin _].
Qed.

(** Create appends one row: whatever [id] the body carries, a create
    whose insertion goes through leaves the rows of before, in their
    order, followed by one row that has the table's counter as its id
    and the body's user name and e-mail address, and moves the counter
    on by one; it answers 201 whatever becomes of the refresh. *)
Theorem create_appends_one_row (r : Request) (user : User) (w : World) :
  Decoder.Decode (Body r) = Ok user ->
  pending w = None ->
  let w' := snd (createUser username_eq r w) in
  fst (createUser username_eq r w) = write_header StatusCreated
  /\ rows w' = rows w ++ [mkUser (next_id w) (Username user) (Email user)]
  /\ next_id w' = next_id w + 1.
Proof.
  destruct w as [rs n m t fs cs ls]. unfold pending. cbn [rows next_id faults].
  intros Hd Hf.
  assert (accepted Create r = inr (InsertUser (Username user) (Email user))) as Ha
    by (cbn; now rewrite Hd).
  destruct (write_outcome username_eq Create r _ rs n m t fs cs ls Ha Hf)
    as (m' & fs' & cs' & ls' & E).
  cbn [write_handler] in E. rewrite E. repeat split.
Qed.

(** An update or a delete that names a user no row has is answered 200
    all the same, and the table is left as it was. *)
Theorem write_for_absent_user
    (k : write) (r : Request) (s : stmt) (name : string) (w : World) :
  accepted k r = inr s ->
  selects s = Some name ->
  Forall (fun u => username_eq (Username u) name = false) (rows w) ->
  pending w = None ->
  let w' := snd (write_handler username_eq k r w) in
  fst (write_handler username_eq k r w) = write_header StatusOK
  /\ rows w' = rows w
  /\ next_id w' = next_id w.
Proof.
  destruct w as [rs n m t fs cs ls]. unfold pending. cbn [rows next_id faults].
  intros Ha Hs Habs Hf.
  destruct (write_outcome username_eq k r s rs n m t fs cs ls Ha Hf)
    as (m' & fs' & cs' & ls' & E).
  rewrite E. cbn [fst snd rows next_id].
  destruct s as [username email|email username|username]; cbn in Hs; [discriminate| |];
    injection Hs as ->; cbn [run_stmt fst snd].
  - destruct k; cbn in Ha; try (destruct (Decoder.Decode (Body r)); discriminate);
      try (destruct (is_empty (query_get r "username")); discriminate).
    now rewrite update_of_absent.
  - destruct k; cbn in Ha; try (destruct (Decoder.Decode (Body r)); discriminate).
    now rewrite delete_of_absent.
Qed.

(** The write handlers keep the primary key: if no two rows share an id
    and every id is below the counter, the same holds after any write
    request, accepted or not, whatever fails. *)
Theorem writes_keep_primary_key (k : write) (r : Request) (w : World) :
  keyed w ->
  keyed (snd (write_handler username_eq k r w)).
Proof.
  destruct w as [rs n m t fs cs ls]. unfold keyed. cbn [rows next_id].
  intros [Hnd Hlt].
  destruct (accepted k r) as [msg|s] eqn:Ha.
  { rewrite (write_handler_rejected username_eq _ _ _ _ Ha). now split. }
  destruct (next_outcome fs) as [msg|] eqn:Hf.
  { rewrite (write_store_fault username_eq _ _ _ _ rs n m t _ cs ls Ha Hf). now split. }
  destruct (write_outcome username_eq k r s rs n m t fs cs ls Ha Hf)
    as (m' & fs' & cs' & ls' & E).
  rewrite E. cbn [snd rows next_id]. now apply run_stmt_keyed.
Qed.

(** A delete removes every row of the user and only those; a second
    delete of the same user, whatever happened to Redis in between,
    finds nothing to remove and is answered 200 as well. *)
Theorem delete_twice (r : Request) (w : World) (n2 : Z) (m2 : gmap string entry) (t2 : Z)
    (fs2 : list (option string)) (cs2 : list call) (ls2 : list string) :
  is_empty (query_get r "username") = false ->
  pending w = None ->
  next_outcome fs2 = None ->
  let w1 := snd (deleteUser username_eq r w) in
  let again := deleteUser username_eq r (mkWorld (rows w1) n2 m2 t2 fs2 cs2 ls2) in
  rows w1 = List.filter (fun u => negb (username_eq (Username u) (query_get r "username")))
                        (rows w)
  /\ Forall (fun u => username_eq (Username u) (query_get r "username") = false) (rows w1)
  /\ fst again = write_header StatusOK
  /\ rows (snd again) = rows w1.
Proof.
  destruct w as [rs n m t fs cs ls]. unfold pending. cbn [rows next_id faults].
  intros Hu Hf Hf2.
  assert (accepted Delete r = inr (DeleteUser (query_get r "username"))) as Ha
    by (cbn; now rewrite Hu).
  destruct (write_outcome username_eq Delete r _ rs n m t fs cs ls Ha Hf)
    as (m' & fs' & cs' & ls' & E).
  cbn [write_handler] in E. rewrite E. cbn [snd rows run_stmt fst].
  destruct (write_outcome username_eq Delete r _
              (List.filter (fun u => negb (username_eq (Username u) (query_get r "username")))
                           rs) n2 m2 t2 fs2 cs2 ls2 Ha Hf2)
    as (m3 & fs3 & cs3 & ls3 & E2).
  cbn [write_handler] in E2. rewrite E2. cbn [fst snd rows run_stmt].
  split; [reflexivity|]. split; [apply delete_leaves_no_match|].
  split; [reflexivity|].
  apply delete_of_absent, delete_leaves_no_match.
Qed.

(** An update touches e-mail addresses only: the rows keep their
    number, order, ids and user names, the counter stays, and a row's
    address becomes the body's exactly when its user name matches. *)
Theorem update_changes_emails_only (r : Request) (user : User) (w : World) :
  Decoder.Decode (Body r) = Ok user ->
  pending w = None ->
  let w' := snd (updateUser username_eq r w) in
  map ID (rows w') = map ID (rows w)
  /\ map Username (rows w') = map Username (rows w)
  /\ map Email (rows w')
     = map (fun u => if username_eq (Username u) (Username user)
                     then Email user else Email u) (rows w)
  /\ next_id w' = next_id w.
Proof.
  destruct w as [rs n m t fs cs ls]. unfold pending. cbn [rows next_id faults].
  intros Hd Hf.
  assert (accepted Update r = inr (UpdateEmail (Email user) (Username user))) as Ha
    by (cbn; now rewrite Hd).
  destruct (write_outcome username_eq Update r _ rs n m t fs cs ls Ha Hf)
    as (m' & fs' & cs' & ls' & E).
  cbn [write_handler] in E. rewrite E. cbn [snd rows next_id run_stmt fst].
  rewrite !map_map.
  repeat split; apply map_ext; intros u;
    now destruct (username_eq (Username u) (Username user)).
Qed.

End Table.

(** The theorem at a create whose body carries an id of its own. *)
Lemma create_appends_one_row_witness :
  rows (snd (createUser String.eqb create_with_id (only_ann []))) = [ann; bob].
Proof.
  exact (proj1 (proj2 (create_appends_one_row String.eqb create_with_id
                         (mkUser 77 "bob" "b@x.com") (only_ann []) eq_refl eq_refl))).
Defined.

(** The theorem at the deletion of a user the table does not hold. *)
Lemma write_for_absent_user_witness :
  fst (deleteUser String.eqb delete_zed (only_ann [])) = write_header StatusOK
  /\ rows (snd (deleteUser String.eqb delete_zed (only_ann []))) = [ann].
Proof.
  assert (Forall (fun u => String.eqb (Username u) "zed" = false) (rows (only_ann [])))
    as Habs by (repeat constructor).
  pose proof (write_for_absent_user String.eqb Delete delete_zed (DeleteUser "zed") "zed"
                (only_ann []) eq_refl eq_refl Habs eq_refl) as H.
  cbv zeta in H. destruct H as (Hr & Hrows & _).
  split; [exact Hr | exact Hrows].
Defined.

(** The theorem at the insertion of bob. *)
Lemma writes_keep_primary_key_witness :
  keyed (only_ann []) /\ keyed (snd (createUser String.eqb create_bob (only_ann []))).
Proof.
  assert (keyed (only_ann [])) as Hk.
  { split; cbn.
    - apply NoDup_singleton.
    - repeat constructor. }
  split; [exact Hk|].
  exact (writes_keep_primary_key String.eqb Create create_bob (only_ann []) Hk).
Defined.

(** The theorem at ann deleted twice. *)
Lemma delete_twice_witness :
  let w1 := snd (deleteUser String.eqb delete_ann (only_ann [])) in
  rows w1 = []
  /\ fst (deleteUser String.eqb delete_ann (mkWorld (rows w1) 2 ∅ 5 [] [] []))
     = write_header StatusOK.
Proof.
  pose proof (delete_twice String.eqb delete_ann (only_ann []) 2 ∅ 5 [] [] []
                eq_refl eq_refl eq_refl) as H.
  cbv zeta in H. destruct H as (Hrows & _ & Hagain & _).
  cbv zeta. split; [exact Hrows | exact Hagain].
Defined.

(** The theorem at a new address for ann. *)
Lemma update_changes_emails_only_witness :
  map Email (rows (snd (updateUser String.eqb update_ann (only_ann [])))) = ["ann@y.org"]
  /\ map ID (rows (snd (updateUser String.eqb update_ann (only_ann [])))) = [1].
Proof.
  pose proof (update_changes_emails_only String.eqb update_ann
                (mkUser 0 "ann" "ann@y.org") (only_ann []) eq_refl eq_refl) as H.
  cbv zeta in H. destruct H as (Hid & _ & Hemail & _).
  split; [exact Hemail | exact Hid].
Defined.

(** ** The list handler and the life of the cached collection *)






(** A list or a hash that the generic handlers have put under the key
    [users] does not survive a list request: the probe gets the
    wrong-type error, the handler takes it for a miss, reads the table
    and overwrites the key with the collection. *)
Theorem list_replaces_foreign_value (r : Request) (w : World) (e : entry) :
  lookup_live w "users" = Some e ->
  (forall s, value e <> RString s) ->
  quiet 0 (3 + length (rows w)) w = true ->
  let w' := snd (getUsers r w) in
  fst (rdb_Get "users" w) = Err WrongType
  /\ fst (getUsers r w) = write_json (payload_of (rows w))
  /\ rdb w' = <["users" := users_entry (rows w) (now w) (2 * Minute)]> (rdb w).
Proof.
  destruct w as [rs n m t fs cs ls]. unfold quiet, lookup_live.
  cbn [rows next_id rdb now faults calls logs]. change (drop 0 fs) with fs.
  intros Hl Hv Hq.
  change (3 + ?x)%nat with (S (2 + x)) in Hq.
  rewrite forallb_take_S in Hq. apply andb_prop in Hq as [H0 Hq].
  apply no_fault_None in H0.
  assert (fst (rdb_Get "users" (mkWorld rs n m t fs cs ls)) = Err WrongType) as Hp.
  { rewrite probe_outcome, H0.
    destruct (m !! "users") as [e'|]; [|discriminate].
    destruct (live t e'); [|discriminate].
    injection Hl as ->.
    destruct (value e) as [s| |] eqn:V; [|reflexivity|reflexivity].
    now destruct (Hv s). }
  cbv zeta. split; [exact Hp|].
  now rewrite (getUsers_miss_quiet r WrongType _ _ _ _ _ _ _ Hp Hq).
Qed.

(** The theorem at a list pushed under [users]. *)
Lemma list_replaces_foreign_value_witness :
  let w := snd (setList push_to_users (only_ann [])) in
  list_at w "users" = Some ["x"; "y"]
  /\ fst (getUsers list_request w) = write_json (payload_of [ann])
  /\ hit_payload (snd (getUsers list_request w)) = Some (payload_of [ann]).
Proof.
  cbv zeta. split; [reflexivity|].
  assert (forall s, RList ["x"; "y"] <> RString s) as Hv by discriminate.
  pose proof (list_replaces_foreign_value list_request
                (snd (setList push_to_users (only_ann [])))
                (mkEntry (RList ["x"; "y"]) None) eq_refl Hv eq_refl) as H.
  cbv zeta in H. destruct H as (_ & Hr & _).
  split; [exact Hr | reflexivity].
Defined.




(** The list handler never writes to the table or to the log, whatever
    fails, and it answers either 200 with the JSON content type or 500
    with a plain-text error. *)
Theorem list_leaves_table (r : Request) (w : World) :
  let resp := fst (getUsers r w) in
  let w' := snd (getUsers r w) in
  rows w' = rows w
  /\ next_id w' = next_id w
  /\ logs w' = logs w
  /\ now w' = now w
  /\ ((status resp = StatusOK /\ content_type resp = Some "application/json")
      \/ (status resp = StatusInternalServerError
          /\ content_type resp = Some "text/plain; charset=utf-8")).
Proof.
  destruct w as [rs n m t fs cs ls]. cbv zeta.
  destruct (fst (rdb_Get "users" (mkWorld rs n m t fs cs ls))) as [payload|e] eqn:Hp.
  - rewrite (getUsers_hit_eq r payload _ _ _ _ _ _ _ Hp). repeat split. now left.
  - destruct (forallb no_fault (take (2 + length rs) (tail fs))) eqn:Hq.
    + rewrite (getUsers_miss_quiet r e _ _ _ _ _ _ _ Hp Hq). repeat split. now left.
    + destruct (getUsers_miss_faulty r e _ _ _ _ _ _ _ Hp Hq) as (msg & k & cs' & E).
      rewrite E. repeat split. now right.
Qed.

Lemma forallb_replicate_scan (k : nat) : forallb is_db_call (replicate k RowsScan) = true.
Proof. induction k as [|k IH]; cbn; [reflexivity | exact IH]. Qed.

(** The handlers of main.go call nothing but the database: whatever
    fails, they leave the keyspace of Redis, its clock and the log as
    they are, and every call they make is an [Exec], a [Query] or a
    [Scan]. *)
Theorem plain_handlers_never_call_redis
    (username_eq : string -> string -> bool) (k : write) (r : Request) (w : World) :
  let read := snd (Plain.getUsers r w) in
  let written := snd (plain_write_handler username_eq k r w) in
  rdb read = rdb w /\ logs read = logs w
  /\ (exists made, calls read = calls w ++ made /\ forallb is_db_call made = true)
  /\ rdb written = rdb w /\ logs written = logs w
  /\ (exists made, calls written = calls w ++ made /\ forallb is_db_call made = true).
Proof.
  destruct w as [rs n m t fs cs ls]. cbv zeta.
  assert (rdb (snd (Plain.getUsers r (mkWorld rs n m t fs cs ls))) = m
          /\ logs (snd (Plain.getUsers r (mkWorld rs n m t fs cs ls))) = ls
          /\ exists made,
               calls (snd (Plain.getUsers r (mkWorld rs n m t fs cs ls))) = cs ++ made
               /\ forallb is_db_call made = true) as Hread.
  { unfold Plain.getUsers, bind. rewrite db_Query_eq.
    destruct (next_outcome fs) as [msg|].
    { cbn. repeat split. now exists [DbQuery]. }
    destruct (forallb no_fault (take (length rs) (tail fs))) eqn:Hq.
    - rewrite scan_rows_quiet by exact Hq. rewrite Marshal_payload. cbn.
      repeat split. exists (DbQuery :: replicate (length rs) RowsScan).
      split; [now rewrite <- app_assoc | apply forallb_replicate_scan].
    - destruct (scan_rows_faulty rs [] rs n m t (tail fs) (cs ++ [DbQuery]) ls Hq)
        as (msg & j & E).
      rewrite E. cbn. repeat split. exists (DbQuery :: replicate j RowsScan).
      split; [now rewrite <- app_assoc | apply forallb_replicate_scan]. }
  destruct Hread as (H1 & H2 & H3).
  split; [exact H1|]. split; [exact H2|]. split; [exact H3|].
  rewrite plain_write_eq.
  destruct (accepted k r) as [msg|s].
  - cbn. repeat split. exists []. split; [now rewrite app_nil_r | reflexivity].
  - destruct (next_outcome fs); cbn; repeat split; now exists [DbExec s].
Qed.
